(** * pyckup: protocol dispatch ([pyckup/base.py]) and the OWID acquirer
      ([pyckup/sources/owid.py])

    The two Python modules are embedded as programs over the calls they make
    into code that lives outside the repository (the file system, [graze],
    [haggle], [dol], [zipfile], [json]).  A program is a tree: it either
    returns, or performs one external call and continues with whatever the
    call replied (a value, or an exception).  Running a program against an
    environment yields its result, the final state of the environment and
    the list of external calls that were made, in order.

    Python strings are [string]s; a character is a code point below 256. *)

From Stdlib Require Import Ascii NArith Lia.
From stdpp Require Import base strings gmap list.

Local Open Scope stdpp_scope.

(** ** Strings, as the Python operations used by the code see them *)

(** [s.startswith(pre)] *)
Definition startswith (s pre : string) : bool := String.prefix pre s.

(** [pat in s] *)
Fixpoint contains (pat s : string) : bool :=
  String.prefix pat s ||
  match s with
  | EmptyString => false
  | String _ s' => contains pat s'
  end.

(** [s[n:]] *)
Fixpoint string_drop (n : nat) (s : string) : string :=
  match n, s with
  | O, _ => s
  | S n', String _ s' => string_drop n' s'
  | S _, EmptyString => EmptyString
  end.

Definition code (c : ascii) : N := N_of_ascii c.

Definition between (lo hi : N) (c : ascii) : bool :=
  (lo <=? code c)%N && (code c <=? hi)%N.

(** [\w] of the [re] module on [str] patterns: alphanumeric code points and
    the underscore.  Below 256 these are the ASCII letters and digits, [_],
    and the Latin-1 letters and numerics listed here. *)
Definition is_word_char (c : ascii) : bool :=
  between 48 57 c || between 65 90 c || between 97 122 c || (code c =? 95)%N
  || (code c =? 170)%N || between 178 179 c || (code c =? 181)%N
  || between 185 186 c || between 188 190 c
  || between 192 214 c || between 216 246 c || between 248 255 c.

(** The line feed, the one character [.] does not match. *)
Definition is_newline (c : ascii) : bool := (code c =? 10)%N.

(** [c.lower()] for a code point below 256. *)
Definition lower_char (c : ascii) : ascii :=
  if between 65 90 c || between 192 214 c || between 216 222 c
  then ascii_of_N (code c + 32) else c.

(** [s.lower()] *)
Fixpoint lower (s : string) : string :=
  match s with
  | EmptyString => EmptyString
  | String c s' => String (lower_char c) (lower s')
  end.

(** ** External calls and programs *)

(** What a program can observe of an exception raised by a collaborator:
    whether [except Exception] catches it, and [str(e)]. *)
Record failure := Failure { derives_Exception : bool; message : string }.

Inductive reply (X : Type) : Type :=
| Done (x : X)
| Failed (f : failure).
Arguments Done {X} x.
Arguments Failed {X} f.

Section Programs.
(** A signature of external calls: the calls, and the type of value each
    one returns when it does not raise. *)
Context {op : Type} {ans : op → Type}.

Inductive prog (R : Type) : Type :=
| Ret (r : R)
| Vis (o : op) (k : reply (ans o) → prog R).
Arguments Ret {R} r.
Arguments Vis {R} o k.

Fixpoint bind {A B : Type} (p : prog A) (f : A → prog B) : prog B :=
  match p with
  | Ret a => f a
  | Vis o k => Vis o (λ r, bind (k r) f)
  end.

Definition call (o : op) : prog (reply (ans o)) := Vis o Ret.

(** One external call together with what it replied. *)
Record event := Ev { ev_op : op; ev_reply : reply (ans ev_op) }.

Definition trace := list event.

(** An environment answers every call, and may change while doing so. *)
Definition environment (W : Type) := ∀ o : op, W → reply (ans o) * W.

Fixpoint run {W R : Type} (env : environment W) (p : prog R) (w : W)
  : R * W * trace :=
  match p with
  | Ret r => (r, w, [])
  | Vis o k =>
      let '(x, w1) := env o w in
      let '(r, w2, t) := run env (k x) w1 in
      (r, w2, Ev o x :: t)
  end.

(** [wp p Q]: whatever the collaborators reply, the calls made by [p] and
    its result satisfy [Q]. *)
Fixpoint wp {R : Type} (p : prog R) (Q : trace → R → Prop) : Prop :=
  match p with
  | Ret r => Q [] r
  | Vis o k => ∀ x, wp (k x) (λ t r, Q (Ev o x :: t) r)
  end.

(** The three components of a run. *)
Definition result {W R : Type} (x : R * W * trace) : R := x.1.1.
Definition world {W R : Type} (x : R * W * trace) : W := x.1.2.
Definition calls {W R : Type} (x : R * W * trace) : trace := x.2.

(** [answered env w t w']: starting in [w], the environment gives the
    replies recorded in [t] to the calls of [t], and ends in [w']. *)
Fixpoint answered {W : Type} (env : environment W) (w : W) (t : trace) (w' : W)
  : Prop :=
  match t with
  | [] => w' = w
  | ev :: t' =>
      ∃ w1, env (ev_op ev) w = (ev_reply ev, w1) ∧ answered env w1 t' w'
  end.
End Programs.

Arguments prog {op} ans R.
Arguments Ret {op ans R} r.
Arguments Vis {op ans R} o k.
Arguments event {op} ans.
Arguments Ev {op ans} ev_op ev_reply.
Arguments trace {op} ans.
Arguments environment {op} ans W.

(** ** [pyckup/base.py] *)

Module base.

(** The calls [base.py] makes into other packages:
    [os.path.isdir(p)], [dol.Files(p)], [open(p, 'rb')] followed by
    [fp.read()] and the release of [fp], [KaggleDatasets()[k]],
    [Graze()[k]], and [dol.misc.get_obj(k)]. *)
Inductive op : Type :=
| os_path_isdir (p : string)
| Files (p : string)
| open_rb_read (p : string)
| kaggle_data_getitem (k : string)
| graze (k : string)
| get_obj (k : string).

Section Content.
(** What a key resolves to (bytes, a mapping of files, any object). *)
Context {Content : Type}.

Definition ans (o : op) : Type :=
  match o with
  | os_path_isdir _ => bool
  | _ => Content
  end.

(** Exceptions that leave a function of this module. *)
Inductive raised : Type :=
| KeyError (arg : string)
| Propagated (f : failure).

Inductive outcome (A : Type) : Type :=
| Returns (a : A)
| Raises (e : raised).
Arguments Returns {A} a.
Arguments Raises {A} e.

(** A call whose value is returned as it is and whose exception is left
    to propagate. *)
Definition passthrough (o : op) : prog ans (outcome (ans o)) :=
  Vis o (λ r, Ret match r with
                  | Done x => Returns x
                  | Failed f => Raises (Propagated f)
                  end).

(** The longest prefix of word characters, and what follows it. *)
Fixpoint span_word (s : string) : string * string :=
  match s with
  | EmptyString => (EmptyString, EmptyString)
  | String c s' =>
      if is_word_char c
      then let '(w, r) := span_word s' in (String c w, r)
      else (EmptyString, s)
  end.

(** The longest prefix without a line feed: what a greedy [.+] consumes. *)
Fixpoint take_line (s : string) : string :=
  match s with
  | EmptyString => EmptyString
  | String c s' => if is_newline c then EmptyString else String c (take_line s')
  end.

(** [protocol_sep_p.match(key)] for
    [protocol_sep_p = re.compile('(\w+)://(.+)')]: the match is anchored at
    the start of [key]; [\w+] can only end where the next character is the
    colon, which is not a word character, so group 1 is the whole run of
    leading word characters and must be non-empty; then [://]; then [.+]
    takes at least one character and stops before the first line feed.
    [Some] holds [m.groups()]. *)
Definition protocol_sep_p (key : string) : option (string * string) :=
  let '(w, r) := span_word key in
  match w with
  | EmptyString => None
  | String _ _ =>
      if startswith r "://" then
        match take_line (string_drop 3 r) with
        | EmptyString => None
        | String c ref => Some (w, String c ref)
        end
      else None
  end.

(** A handler, as stored in [protocols], is a function from the key to a
    program. *)
Definition get_local_file_bytes_or_folder_mapping (key : string)
  : prog ans (outcome Content) :=
  let key := if startswith key "file://"
             then string_drop (String.length "file://") key else key in
  Vis (os_path_isdir key) (λ d,
    match d with
    | Failed f => Ret (Raises (Propagated f))
    | Done true => passthrough (Files key)
    | Done false => passthrough (open_rb_read key)
    end).

Definition get_kaggle_data (key : string) : prog ans (outcome Content) :=
  let key := if startswith key "kaggle://"
             then string_drop (String.length "kaggle://") key else key in
  passthrough (kaggle_data_getitem key).

Definition graze_getitem (key : string) : prog ans (outcome Content) :=
  passthrough (graze key).

(** The module-level dictionary [protocols] once the module is imported.
    The two [with ignore_if_module_not_found:] blocks register their
    entries only when the import of [haggle], respectively [graze],
    succeeds. *)
Definition protocols (haggle_found graze_found : bool)
  : gmap string (string → prog ans (outcome Content)) :=
  let p := <["file" := get_local_file_bytes_or_folder_mapping]> ∅ in
  let p := if haggle_found then <["kaggle" := get_kaggle_data]> p else p in
  if graze_found
  then <["https" := graze_getitem]> (<["http" := graze_getitem]> p)
  else p.

Definition grab (protocols : gmap string (string → prog ans (outcome Content)))
    (key : string) : prog ans (outcome Content) :=
  let key := if startswith key "/" || startswith key "\"
             then "file://" +:+ key else key in
  if contains "://" key then
    match protocol_sep_p key with
    | Some (protocol, ref) =>
        match protocols !! protocol with
        | None => Ret (Raises (KeyError ("Unrecognized protocol: " +:+ protocol)))
        | Some protocol_func => protocol_func key
        end
    | None => passthrough (get_obj key)
    end
  else passthrough (get_obj key).

(** Only word characters. *)
Fixpoint all_word (s : string) : bool :=
  match s with
  | EmptyString => true
  | String c s' => is_word_char c && all_word s'
  end.

(** No line feed. *)
Fixpoint no_newline (s : string) : bool :=
  match s with
  | EmptyString => true
  | String c s' => negb (is_newline c) && no_newline s'
  end.

(** A scheme name the pattern can match: one or more word characters. *)
Definition scheme_shaped (s : string) : bool :=
  match s with
  | EmptyString => false
  | String _ _ => all_word s
  end.

(** The key is a run of one or more word characters, then [://], then a
    non-empty remainder. *)
Definition scheme_rest_shape (key : string) : bool :=
  let '(w, r) := span_word key in
  scheme_shaped w && startswith r "://" &&
  match string_drop 3 r with
  | EmptyString => false
  | String _ _ => true
  end.

End Content.

(** The line feed, as a string. *)
Definition LF : string := String (ascii_of_N 10) EmptyString.

(** An environment for concrete runs, with strings as content: [/data] is
    a directory, every file can be read, no object can be looked up. *)
Definition demo : environment (@ans string) unit := λ o w,
  (match o as o' return reply (@ans string o') with
   | os_path_isdir p => Done (String.eqb p "/data")
   | Files p => Done ("Files:" +:+ p)
   | open_rb_read p => Done ("bytes:" +:+ p)
   | kaggle_data_getitem k => Done ("kaggle:" +:+ k)
   | graze k => Done ("graze:" +:+ k)
   | get_obj k => Failed (Failure true ("No module named " +:+ k))
   end, w).

Arguments ans Content o : clear implicits.
Arguments Returns {A} a.
Arguments Raises {A} e.

Abbreviation handler Content :=
  (string → prog (ans Content) (outcome Content)) (only parsing).

End base.

(** ** [pyckup/sources/owid.py] *)

Module owid.

(** The calls [owid.py] makes into other packages.
    - [Path_exists p], [Path_stat p], [Path_unlink p], [Path_read_text p]:
      the [pathlib] methods, on the path written [p];
    - [json_title text slug]: [json.loads(text)] followed by
      [.get("chart", {}).get("title", slug)];
    - [url_to_file_download url filepath overwrite]: the [graze] function,
      called with [return_func=return_filepath];
    - [ZipFile p], [ZipFile_exit p]: entering and leaving
      [with zipfile.ZipFile(p, 'r') as zf];
    - [extract_member p member dest]:
      [with zf.open(member) as fsrc, open(dest, "wb") as fdst:
         fdst.write(fsrc.read())]. *)
Inductive op : Type :=
| Path_exists (p : string)
| Path_stat (p : string)
| Path_unlink (p : string)
| Path_read_text (p : string)
| json_title (text slug : string)
| url_to_file_download (url filepath : string) (overwrite : bool)
| ZipFile (p : string)
| ZipFile_exit (p : string)
| extract_member (p member dest : string).

Definition ans (o : op) : Type :=
  match o with
  | Path_exists _ => bool
  | Path_stat _ => N
  | Path_read_text _ => string
  | json_title _ _ => string
  | url_to_file_download _ _ _ => option string
  | Path_unlink _ | ZipFile _ | ZipFile_exit _ | extract_member _ _ _ => unit
  end.

(** Exceptions that can be in flight inside this module. *)
Inductive raised : Type :=
| ValueError (arg : string)
| AttributeError (arg : string)
| Propagated (f : failure).

(** Does [except Exception] catch it. *)
Definition is_Exception (e : raised) : bool :=
  match e with
  | ValueError _ | AttributeError _ => true
  | Propagated f => derives_Exception f
  end.

(** [str(e)] *)
Definition str (e : raised) : string :=
  match e with
  | ValueError arg | AttributeError arg => arg
  | Propagated f => message f
  end.

Inductive outcome (A : Type) : Type :=
| Returns (a : A)
| Raises (e : raised).
Arguments Returns {A} a.
Arguments Raises {A} e.

(** The variables of one call of [acquire_owid_data] that are assigned in
    one place and read in another: the set [attempted_zip] that the nested
    function [_download_from_zip] shares with its enclosing call, the
    results [csv_file] and [json_file], [json_file_from_zip] (which is
    unbound until it is assigned: [None] here, [Some v] once bound to [v]),
    and [csv_ok], [json_ok] of [_download_from_zip]. *)
Record frame := Frame {
  attempted_zip : gset string;
  csv_file : option string;
  json_file : option string;
  json_file_from_zip : option (option string);
  csv_ok : option string;
  json_ok : option string
}.

Definition set_attempted_zip (v : gset string) (s : frame) : frame :=
  Frame v (csv_file s) (json_file s) (json_file_from_zip s) (csv_ok s) (json_ok s).
Definition set_csv_file (v : option string) (s : frame) : frame :=
  Frame (attempted_zip s) v (json_file s) (json_file_from_zip s) (csv_ok s) (json_ok s).
Definition set_json_file (v : option string) (s : frame) : frame :=
  Frame (attempted_zip s) (csv_file s) v (json_file_from_zip s) (csv_ok s) (json_ok s).
Definition set_json_file_from_zip (v : option string) (s : frame) : frame :=
  Frame (attempted_zip s) (csv_file s) (json_file s) (Some v) (csv_ok s) (json_ok s).
Definition set_csv_ok (v : option string) (s : frame) : frame :=
  Frame (attempted_zip s) (csv_file s) (json_file s) (json_file_from_zip s) v (json_ok s).
Definition set_json_ok (v : option string) (s : frame) : frame :=
  Frame (attempted_zip s) (csv_file s) (json_file s) (json_file_from_zip s) (csv_ok s) v.

(** Statements: they read and assign the variables of the frame, call out,
    and finish by falling through with a value or with an exception in
    flight; the frame survives an exception. *)
Definition proc (A : Type) : Type := frame → prog ans (outcome A * frame).

Definition ret {A} (a : A) : proc A := λ s, Ret (Returns a, s).

Definition raise {A} (e : raised) : proc A := λ s, Ret (Raises e, s).

Definition seq {A B} (m : proc A) (f : A → proc B) : proc B := λ s,
  bind (m s) (λ '(r, s1),
    match r with
    | Returns a => f a s1
    | Raises e => Ret (Raises e, s1)
    end).

Definition read {A} (field : frame → A) : proc A := λ s, Ret (Returns (field s), s).

Definition assign (update : frame → frame) : proc unit := λ s, Ret (Returns tt, update s).

(** An external call; an exception it raises is in flight afterwards. *)
Definition perform (o : op) : proc (ans o) := λ s,
  Vis o (λ r, Ret (match r with
                   | Done x => Returns x
                   | Failed f => Raises (Propagated f)
                   end, s)).

(** [try: body except Exception as e: handler] *)
Definition try_except {A} (body : proc A) (handler : raised → proc A) : proc A := λ s,
  bind (body s) (λ '(r, s1),
    match r with
    | Returns a => Ret (Returns a, s1)
    | Raises e => if is_Exception e then handler e s1 else Ret (Raises e, s1)
    end).

(** [try: body finally: cleanup]; an exception of [cleanup] replaces the
    one in flight. *)
Definition try_finally {A} (body : proc A) (cleanup : proc unit) : proc A := λ s,
  bind (body s) (λ '(r, s1),
    bind (cleanup s1) (λ '(c, s2),
      match c with
      | Returns _ => Ret (r, s2)
      | Raises e => Ret (Raises e, s2)
      end)).

Declare Scope proc_scope.
Delimit Scope proc_scope with proc.
Bind Scope proc_scope with proc.
Notation "x <- m ;; k" := (seq m (λ x, k))
  (at level 100, m at next level, right associativity) : proc_scope.
Notation "m ;; k" := (seq m (λ _, k))
  (at level 100, right associativity) : proc_scope.
Local Open Scope proc_scope.

(** [with zipfile.ZipFile(p, 'r') as zf: body] *)
Definition with_ZipFile {A} (p : string) (body : proc A) : proc A :=
  perform (ZipFile p) ;; try_finally body (perform (ZipFile_exit p)).

(** [bool(x)] for a value that is a string or [None]. *)
Definition truthy (x : option string) : bool :=
  match x with
  | Some (String _ _) => true
  | _ => false
  end.

Fixpoint endswith_sep (s : string) : bool :=
  match s with
  | EmptyString => false
  | String c EmptyString => (code c =? 47)%N
  | String _ s' => endswith_sep s'
  end.

(** [os.path.join(a, b)] of [posixpath]. *)
Definition os_path_join (a b : string) : string :=
  if startswith b "/" then b
  else match a with
       | EmptyString => b
       | String _ _ => if endswith_sep a then a +:+ b else a +:+ "/" +:+ b
       end.

Section Rootdir.
(** [owid_downloads_dir_path], the default of [rootdir]: the [owid]
    folder under the downloads directory that [pyckup.util] sets up. *)
Context (owid_downloads_dir_path : string).

Definition slug_to_url_and_filename (slug kind : string) (rootdir : string)
  : outcome (string * string) :=
  let base := "https://ourworldindata.org/grapher/" +:+ slug in
  if String.eqb kind "json" then
    Returns (base +:+ ".metadata.json", os_path_join rootdir (slug +:+ ".metadata.json"))
  else if String.eqb kind "csv" then
    Returns (base +:+ ".csv", os_path_join rootdir (slug +:+ ".csv"))
  else if String.eqb kind "zip" then
    Returns (base +:+ ".zip", os_path_join rootdir (slug +:+ ".zip"))
  else if String.eqb kind "html" then
    Returns (base, os_path_join rootdir (slug +:+ ".html"))
  else
    Raises (ValueError ("Unknown kind: " +:+ kind
                        +:+ " (should be 'json', 'csv', 'zip', or 'html')")).

(** A pure call that may raise. *)
Definition lift {A} (r : outcome A) : proc A := λ s, Ret (r, s).

Definition _is_forbidden_error (err : raised) : bool :=
  let msg := str err in
  contains "403" msg || contains "Forbidden" msg.

Definition _is_non_redistributable (err : raised) : bool :=
  let msg := lower (str err) in
  contains "non-redistributable" msg || contains "not allowed to re-share" msg.

(** The first [try] of [_download_from_zip]: the path of the downloaded
    archive, or [None] on each of the ways that return [None, None]. *)
Definition download_zip (refresh : bool) (zip_url tmp_zip_path : string)
  : proc (option string) :=
  try_except
    (zip_ret <- perform (url_to_file_download zip_url tmp_zip_path refresh) ;;
     if negb (truthy zip_ret) then ret None
     else
       let zip_file_path := default EmptyString zip_ret in
       present <- perform (Path_exists zip_file_path) ;;
       if negb present then ret None else ret (Some zip_file_path))
    (λ e, if _is_non_redistributable e then ret None else ret None).

(** One of the two inner [try] blocks.  [dest] is a [str] (the second
    component of [slug_to_url_and_filename]), so evaluating [dest.name] for
    the message printed after the assignment raises [AttributeError], which
    the [except] of the same block catches with the assignment made. *)
Definition extract_one (zip_file_path member dest : string)
    (set_ok : option string → frame → frame) : proc unit :=
  try_except
    (perform (extract_member zip_file_path member dest) ;;
     assign (set_ok (Some dest)) ;;
     raise (AttributeError "'str' object has no attribute 'name'"))
    (λ e, ret tt).

(** The second [try] of [_download_from_zip], with its [finally]. *)
Definition extract_from_zip (slug csv_path json_path zip_file_path : string)
  : proc unit :=
  try_finally
    (try_except
       (with_ZipFile zip_file_path
          (let csv_member := slug +:+ ".csv" in
           let meta_member := slug +:+ ".metadata.json" in
           extract_one zip_file_path csv_member csv_path set_csv_ok ;;
           extract_one zip_file_path meta_member json_path set_json_ok))
       (λ e, ret tt))
    (try_except
       (present <- perform (Path_exists zip_file_path) ;;
        if present then perform (Path_unlink zip_file_path) else ret tt)
       (λ _, ret tt)).

Definition _download_from_zip (refresh : bool) (slug csv_path json_path : string)
  : proc (option string * option string) :=
  zip <- lift (slug_to_url_and_filename slug "zip" owid_downloads_dir_path) ;;
  let '(zip_url, tmp_zip_path) := zip in
  attempted <- read attempted_zip ;;
  if bool_decide (slug ∈ attempted) && negb refresh then ret (None, None)
  else
    assign (set_attempted_zip ({[slug]} ∪ attempted)) ;;
    got <- download_zip refresh zip_url tmp_zip_path ;;
    match got with
    | None => ret (None, None)
    | Some zip_file_path =>
        assign (set_csv_ok None) ;; assign (set_json_ok None) ;;
        extract_from_zip slug csv_path json_path zip_file_path ;;
        c <- read csv_ok ;; j <- read json_ok ;; ret (c, j)
    end.

(** The [else] branch under [# ---- CSV ----]: the direct attempt. *)
Definition csv_direct (refresh : bool) (slug csv_url csv_path json_path : string)
  : proc unit :=
  try_except
    (csv_ret <- perform (url_to_file_download csv_url csv_path refresh) ;;
     assign (set_csv_file (if truthy csv_ret then csv_ret else None)) ;;
     f <- read csv_file ;;
     match f with
     | Some p =>
         present <- perform (Path_exists p) ;;
         if present then perform (Path_stat p) ;; ret tt
         else assign (set_csv_file None)
     | None => assign (set_csv_file None)
     end)
    (λ e,
      if _is_non_redistributable e then assign (set_csv_file None)
      else if _is_forbidden_error e then
        attempted <- read attempted_zip ;;
        if negb (bool_decide (slug ∈ attempted)) then
          r <- _download_from_zip refresh slug csv_path json_path ;;
          assign (set_csv_file r.1) ;; assign (set_json_file_from_zip r.2)
        else
          assign (set_csv_file None) ;; assign (set_json_file_from_zip None)
      else
        assign (set_csv_file None) ;; assign (set_json_file_from_zip None)).

(** The block under [# ---- CSV ----]. *)
Definition csv_section (refresh : bool) (slug csv_url csv_path json_path : string)
  : proc unit :=
  assign (set_csv_file None) ;;
  present <- perform (Path_exists csv_path) ;;
  if present && negb refresh then assign (set_csv_file (Some csv_path))
  else csv_direct refresh slug csv_url csv_path json_path.

(** The innermost [try] under [# ---- JSON metadata ----]: the direct
    attempt, with the title read for the log. *)
Definition json_direct (refresh : bool) (slug json_url csv_path json_path : string)
  : proc unit :=
  try_except
    (json_ret <- perform (url_to_file_download json_url json_path refresh) ;;
     assign (set_json_file (if truthy json_ret then json_ret else None)) ;;
     f <- read json_file ;;
     match f with
     | Some p =>
         present <- perform (Path_exists p) ;;
         if present then
           try_except
             (text <- perform (Path_read_text p) ;;
              perform (json_title text slug) ;;
              perform (Path_stat p) ;;
              ret tt)
             (λ _, ret tt)
         else assign (set_json_file None)
     | None => assign (set_json_file None)
     end)
    (λ e,
      if _is_non_redistributable e then assign (set_json_file None)
      else
        attempted <- read attempted_zip ;;
        if _is_forbidden_error e && negb (bool_decide (slug ∈ attempted)) then
          r <- _download_from_zip refresh slug csv_path json_path ;;
          assign (set_json_file r.2)
        else assign (set_json_file None)).

(** ["json_file_from_zip" in locals() and json_file_from_zip] *)
Definition bound_and_truthy (v : option (option string)) : bool :=
  match v with
  | Some x => truthy x
  | None => false
  end.

(** The block under [# ---- JSON metadata ----]. *)
Definition json_section (refresh : bool) (slug json_url csv_path json_path : string)
  : proc unit :=
  assign (set_json_file None) ;;
  present <- perform (Path_exists json_path) ;;
  if present && negb refresh then assign (set_json_file (Some json_path))
  else
    from_zip <- read json_file_from_zip ;;
    if bound_and_truthy from_zip then assign (set_json_file (default None from_zip))
    else json_direct refresh slug json_url csv_path json_path.

(** The body of [acquire_owid_data], on the frame of the call. *)
Definition acquire_body (slug : string) (refresh : bool)
  : proc (option string * option string) :=
  json <- lift (slug_to_url_and_filename slug "json" owid_downloads_dir_path) ;;
  let '(json_url, json_path) := json in
  csv <- lift (slug_to_url_and_filename slug "csv" owid_downloads_dir_path) ;;
  let '(csv_url, csv_path) := csv in
  csv_section refresh slug csv_url csv_path json_path ;;
  json_section refresh slug json_url csv_path json_path ;;
  j <- read json_file ;; c <- read csv_file ;; ret (j, c).

(** The frame a call starts with: [attempted_zip = set()] and nothing
    else bound. *)
Definition fresh_frame : frame := Frame ∅ None None None None None.

(** [acquire_owid_data(slug, refresh=refresh)]: what the call returns or
    raises.  [refresh=None] behaves as [False] in every use
    ([not refresh], [bool(refresh)]). *)
Definition acquire_owid_data (slug : string) (refresh : bool)
  : prog ans (outcome (option string * option string)) :=
  bind (acquire_body slug refresh fresh_frame) (λ '(r, _), Ret r).

End Rootdir.

End owid.

(** ** What is read off a trace of [owid] calls *)

Module owid_trace.
Import owid.

(** The three remote addresses and the two cache paths of a slug, as
    [slug_to_url_and_filename] builds them. *)
Definition base_url (slug : string) : string :=
  "https://ourworldindata.org/grapher/" +:+ slug.
Definition csv_url (slug : string) : string := base_url slug +:+ ".csv".
Definition json_url (slug : string) : string := base_url slug +:+ ".metadata.json".
Definition zip_url (slug : string) : string := base_url slug +:+ ".zip".
Definition csv_path (rootdir slug : string) : string :=
  os_path_join rootdir (slug +:+ ".csv").
Definition json_path (rootdir slug : string) : string :=
  os_path_join rootdir (slug +:+ ".metadata.json").

(** Is the call a download from [url]. *)
Definition is_download (url : string) (o : op) : bool :=
  match o with
  | url_to_file_download u _ _ => String.eqb u url
  | _ => false
  end.

(** How many times the download capability was invoked on [url]. *)
Fixpoint downloads (url : string) (t : trace ans) : nat :=
  match t with
  | [] => 0
  | ev :: t' => (if is_download url (ev_op ev) then 1 else 0) + downloads url t'
  end.

(** The failure an event carries, if the call raised. *)
Definition failure_of (ev : event ans) : option failure :=
  match ev_reply ev with
  | Failed f => Some f
  | Done _ => None
  end.

(** The call is a download from [url] that raised an error [class]
    accepts. *)
Definition download_raised (url : string) (class : raised → bool) (ev : event ans) : bool :=
  is_download url (ev_op ev) &&
  match failure_of ev with
  | Some f => class (Propagated f)
  | None => false
  end.

Definition any_download (o : op) : bool :=
  match o with
  | url_to_file_download _ _ _ => true
  | _ => false
  end.

(** No event of the trace is a call of the download capability. *)
Definition no_download (t : trace ans) : bool :=
  forallb (λ ev, negb (any_download (ev_op ev))) t.

Definition is_exists (o : op) : bool :=
  match o with
  | Path_exists _ => true
  | _ => false
  end.

(** The event is a call that returned, or a call other than an existence
    check that raised an exception derived from [Exception]. *)
Definition tolerated_event (ev : event ans) : bool :=
  match failure_of ev with
  | None => true
  | Some f => derives_Exception f && negb (is_exists (ev_op ev))
  end.

(** Every failure in the run is of that kind: in particular every failed
    download and every failed archive operation is. *)
Definition tolerated (t : trace ans) : bool := forallb tolerated_event t.

(** The event is the extraction of [member] into [dest], and it returned. *)
Definition extracts (member dest : string) (ev : event ans) : bool :=
  match ev_op ev with
  | extract_member _ m d => String.eqb m member && String.eqb d dest
  | _ => false
  end &&
  match failure_of ev with
  | None => true
  | Some _ => false
  end.

(** Some download from [url] raised. *)
Definition download_failed (url : string) (t : trace ans) : bool :=
  existsb (download_raised url (λ _, true)) t.

(** The replies an existence check gives. *)
Definition check_reply (p : string) (expected : bool) (ev : event ans) : bool :=
  match ev_op ev as o return reply (ans o) → bool with
  | Path_exists q => λ r,
      if String.eqb q p then
        match r with
        | Done b => Bool.eqb b expected
        | Failed _ => false
        end
      else true
  | _ => λ _, true
  end (ev_reply ev).

(** Every existence check of [p] made during the run answered [expected]:
    what a run sees of a file that is there, respectively not there, all
    along. *)
Definition exists_checks (p : string) (expected : bool) (t : trace ans) : bool :=
  forallb (check_reply p expected) t.

(** A download from [url] that raised a non-redistributable error is
    directly followed by a download from [zip]: the archive fallback was
    entered for the artifact at [url]. *)
Fixpoint fallback_follows (url zip : string) (t : trace ans) : bool :=
  match t with
  | [] => false
  | ev :: t' =>
      (download_raised url _is_non_redistributable ev &&
       match t' with
       | ev' :: _ => is_download zip (ev_op ev')
       | [] => false
       end)
      || fallback_follows url zip t'
  end.

Definition zip_path (rootdir slug : string) : string :=
  os_path_join rootdir (slug +:+ ".zip").

Definition opens_archive (p : string) (ev : event ans) : bool :=
  match ev_op ev with
  | ZipFile q => String.eqb q p
  | _ => false
  end.

(** The event is the existence check or the unlink of [p] in the [finally]
    clause, and it raised. *)
Definition deletion_raised (p : string) (ev : event ans) : bool :=
  match ev_op ev with
  | Path_exists q | Path_unlink q => String.eqb q p
  | _ => false
  end &&
  match failure_of ev with
  | Some _ => true
  | None => false
  end.

(** The event is an existence check of [p] that answered [False], or an
    unlink of [p] that returned. *)
Definition reports_gone (p : string) (ev : event ans) : bool :=
  match ev_op ev as o return reply (ans o) → bool with
  | Path_exists q => λ r,
      String.eqb q p && match r with Done false => true | _ => false end
  | Path_unlink q => λ r,
      String.eqb q p && match r with Done _ => true | Failed _ => false end
  | _ => λ _, false
  end (ev_reply ev).

(** ** Reasoning about statements *)

(** [pwp m s Q]: started on frame [s], whatever the collaborators reply,
    the calls made by [m], its outcome and the frame it leaves satisfy [Q]. *)
Definition pwp {A} (m : proc A) (s : frame)
    (Q : trace ans → outcome A → frame → Prop) : Prop :=
  wp (m s) (λ t rs, Q t rs.1 rs.2).

(** What one call of [_download_from_zip] does, for a slug not yet in
    [attempted_zip]. *)
Definition zip_post (root slug : string) (refresh : bool) (s : frame)
    (t : trace ans) (r : outcome (option string * option string)) (s' : frame) : Prop :=
  (∃ x t', t = Ev (url_to_file_download (zip_url slug) (zip_path root slug) refresh) x :: t'
           ∧ no_download t' = true) ∧
  (attempted_zip s' = {[slug]} ∪ attempted_zip s ∧ csv_file s' = csv_file s ∧
   json_file s' = json_file s ∧ json_file_from_zip s' = json_file_from_zip s) ∧
  (tolerated t = true → ∃ c j, r = Returns (c, j)) ∧
  (∀ c j, r = Returns (c, j) →
     (c = None ∨ (c = Some (csv_path root slug) ∧
                  existsb (extracts (slug +:+ ".csv") (csv_path root slug)) t = true)) ∧
     (j = None ∨ (j = Some (json_path root slug) ∧
                  existsb (extracts (slug +:+ ".metadata.json") (json_path root slug)) t = true))).

(** The two artifacts of a slug, with the address, the cache path and the
    archive member of each, and its place in the returned pair
    [(json_file, csv_file)]. *)
Inductive artifact : Type := metadata | data.

Definition url_of (a : artifact) (slug : string) : string :=
  match a with
  | metadata => json_url slug
  | data => csv_url slug
  end.

Definition path_of (a : artifact) (rootdir slug : string) : string :=
  match a with
  | metadata => json_path rootdir slug
  | data => csv_path rootdir slug
  end.

Definition member_of (a : artifact) (slug : string) : string :=
  match a with
  | metadata => slug +:+ ".metadata.json"
  | data => slug +:+ ".csv"
  end.

Definition component (a : artifact) (pair : option string * option string)
  : option string :=
  match a with
  | metadata => pair.1
  | data => pair.2
  end.

(** The archive member of [a] was extracted to the cache path of [a]. *)
Definition extracted (a : artifact) (rootdir slug : string) (t : trace ans) : bool :=
  existsb (extracts (member_of a slug) (path_of a rootdir slug)) t.

(** After the extraction phase was entered on the archive at [zp], the last
    call of [_download_from_zip] is the existence check or the unlink of
    [zp], and it either reports the file gone or raised. *)
Definition cleanup_post (t : trace ans) : Prop :=
  ∀ zp, existsb (opens_archive zp) t = true →
  ∃ ev, last t = Some ev ∧ (reports_gone zp ev = true ∨ deletion_raised zp ev = true).

(** ** A simulated provider and disk, for concrete runs *)

(** What the provider does: the error a download from a given address
    raises if it is refused, the members of the archive it serves, and
    whether unlinking fails on the local disk. *)
Record site := Site {
  refuses : string → option failure;
  members : list string;
  unlink_error : option failure
}.

Definition on_disk (p : string) (files : list string) : bool :=
  existsb (String.eqb p) files.

Definition no_such_file : failure :=
  Failure true "[Errno 2] No such file or directory".

(** The environment: the state is the list of files on disk. *)
Definition sim (srv : site) : environment ans (list string) := λ o files,
  match o as o' return reply (ans o') * list string with
  | Path_exists p => (Done (on_disk p files), files)
  | Path_stat p =>
      if on_disk p files then (Done 0%N, files) else (Failed no_such_file, files)
  | Path_unlink p =>
      match unlink_error srv with
      | Some f => (Failed f, files)
      | None =>
          if on_disk p files
          then (Done tt, List.filter (λ q, negb (String.eqb p q)) files)
          else (Failed no_such_file, files)
      end
  | Path_read_text p =>
      if on_disk p files then (Done "{}", files) else (Failed no_such_file, files)
  | json_title text slug => (Done slug, files)
  | url_to_file_download url filepath overwrite =>
      if on_disk filepath files && negb overwrite then (Done (Some filepath), files)
      else match refuses srv url with
           | Some f => (Failed f, files)
           | None => (Done (Some filepath), filepath :: files)
           end
  | ZipFile p =>
      if on_disk p files then (Done tt, files) else (Failed no_such_file, files)
  | ZipFile_exit p => (Done tt, files)
  | extract_member p member dest =>
      if existsb (String.eqb member) (members srv)
      then (Done tt, dest :: files)
      else (Failed (Failure true ("There is no item named " +:+ member)), files)
  end.

(** Direct downloads are answered 403, the archive is served whole. *)
Definition forbidden_site : site :=
  Site (λ url, if contains ".zip" url then None
               else Some (Failure true "HTTP Error 403: Forbidden"))
       ["restricted-x.csv"; "restricted-x.metadata.json"] None.

(** Every download is answered 403. *)
Definition closed_site : site :=
  Site (λ _, Some (Failure true "HTTP Error 403: Forbidden")) [] None.

(** Every download is refused as non-redistributable. *)
Definition policy_site : site :=
  Site (λ _, Some (Failure true "Data is non-redistributable")) [] None.

(** Everything is served. *)
Definition open_site : site :=
  Site (λ _, None) ["life-expectancy.csv"; "life-expectancy.metadata.json"] None.

End owid_trace.

(** ** [pyckup/base.py]: the list of schemes, and [url_2_bytes] *)

Module base_listing.
Import base.

(** [grab.prototols = list(protocols)], evaluated once the registrations
    above it have run: the keys of the dictionary in the order in which
    they were first assigned. *)
Definition prototols (haggle_found graze_found : bool) : list string :=
  ["file"] ++ (if haggle_found then ["kaggle"] else [])
           ++ (if graze_found then ["http"; "https"] else []).

End base_listing.

Module fetch.

(** [url_2_bytes] reads an address chunk by chunk and joins the chunks.
    Its loop ends when a read returns the empty chunk, so a run of the
    model takes an allowance of iterations, [fuel]; the facts below say
    what an allowance that is large enough gives, and that a run is cut
    short by the allowance alone. *)

Definition bytes : Type := list Byte.byte.

(** The calls [url_2_bytes] makes into [urllib.request]:
    [Request(url)], [req.add_header(key, val)], [urlopen(req)] with the
    entry into the [with] block, [response.read(amt)], and the exit from
    the [with] block, which closes the response. *)
Inductive op : Type :=
| Request (url : string)
| add_header (key val : string)
| urlopen
| response_read (amt : Z)
| response_exit.

Definition ans (o : op) : Type :=
  match o with
  | response_read _ => bytes
  | _ => unit
  end.

Inductive outcome (A : Type) : Type :=
| Returns (a : A)
| Raises (f : failure).
Arguments Returns {A} a.
Arguments Raises {A} f.

Definition DFLT_USER_AGENT : string := "Wget/1.16 (linux-gnu)".

(** A program that may be cut short: [None] is a run whose [while True]
    loop was still going when the allowance of iterations ran out. *)
Definition loop (A : Type) : Type := prog ans (option (outcome A)).

(** A call whose exception is left to propagate. *)
Definition invoke {A} (o : op) (k : ans o → loop A) : loop A :=
  Vis o (λ r, match r with
              | Done x => k x
              | Failed f => Ret (Some (Raises f))
              end).

(** The [while True] loop of [content_gen], with the chunks yielded so
    far. *)
Fixpoint read_loop (fuel : nat) (chk_size : Z) (yielded : list bytes)
  : loop (list bytes) :=
  match fuel with
  | O => Ret None
  | S fuel' =>
      invoke (response_read chk_size) (λ chk,
        if (0 <? length chk)%nat
        then read_loop fuel' chk_size (yielded ++ [chk])
        else Ret (Some (Returns yielded)))
  end.

(** The generator [content_gen()], run to its end: the chunks it yields.
    Leaving the [with] block closes the response, whether the block ends
    or raises; an exception of the exit replaces the one in flight. *)
Definition content_gen (fuel : nat) (url : string) (chk_size : Z)
    (user_agent : string) : loop (list bytes) :=
  invoke (Request url) (λ _,
  invoke (add_header "user-agent" user_agent) (λ _,
  invoke urlopen (λ _,
    bind (read_loop fuel chk_size []) (λ body,
      match body with
      | None => Ret None
      | Some res =>
          Vis response_exit (λ x,
            Ret (Some match x with
                      | Done _ => res
                      | Failed f => Raises f
                      end))
      end)))).

(** [url_2_bytes(url, chk_size, user_agent)]: [b''.join(content_gen())]. *)
Definition url_2_bytes (fuel : nat) (url : string) (chk_size : Z)
    (user_agent : string) : loop bytes :=
  bind (content_gen fuel url chk_size user_agent) (λ r,
    Ret match r with
        | Some (Returns chunks) => Some (Returns (concat chunks))
        | Some (Raises f) => Some (Raises f)
        | None => None
        end).

(** What a trace shows: the chunks the reads returned, in order. *)
Definition chunk_of (ev : event ans) : option bytes :=
  match ev_op ev as o return reply (ans o) → option bytes with
  | response_read _ => λ r, match r with Done c => Some c | Failed _ => None end
  | _ => λ _, None
  end (ev_reply ev).

Definition chunks_of (t : trace ans) : list bytes := omap chunk_of t.

Definition is_exit (o : op) : bool :=
  match o with response_exit => true | _ => false end.

(** The response was opened: [urlopen] returned. *)
Definition opened (ev : event ans) : bool :=
  match ev_op ev as o return reply (ans o) → bool with
  | urlopen => λ r, match r with Done _ => true | Failed _ => false end
  | _ => λ _, false
  end (ev_reply ev).

(** How many times the response was closed. *)
Definition closes (t : trace ans) : nat :=
  length (List.filter (λ ev, is_exit (ev_op ev)) t).

(** The exception the call raised, if it raised. *)
Definition failure_in (ev : event ans) : option failure :=
  match ev_reply ev with
  | Failed f => Some f
  | Done _ => None
  end.

(** The exceptions the calls raised, in order. *)
Definition failures (t : trace ans) : list failure := omap failure_in t.

(** What the loop does: it only reads.  When it ends, the last read
    returned the empty chunk, the reads before it returned non-empty chunks
    and those were yielded; when it raises, the read that raised was the
    last one; it is cut short only after as many non-empty chunks as the
    allowance. *)
Definition loop_post (fuel : nat) (chk_size : Z) (yielded : list bytes)
    (t : trace ans) (r : option (outcome (list bytes))) : Prop :=
  map ev_op t = replicate (length t) (response_read chk_size) ∧
  match r with
  | Some (Returns l) =>
      ∃ new, l = yielded ++ new ∧ chunks_of t = new ++ [[]]
             ∧ Forall (λ c, c ≠ []) new ∧ failures t = []
             ∧ length t = S (length new)
  | Some (Raises f) => failures t = [f]
  | None =>
      length (chunks_of t) = fuel ∧ Forall (λ c, c ≠ []) (chunks_of t)
      ∧ failures t = []
  end.

(** Everything the proofs below need of one call of [url_2_bytes]. *)
Definition call_post (fuel : nat) (url : string) (chk_size : Z) (user_agent : string)
    (t : trace ans) (r : option (outcome bytes)) : Prop :=
  (r ≠ None →
   closes t = (if existsb opened t then 1 else 0) ∧
   (existsb opened t = true → ∃ x, last t = Some (Ev response_exit x))) ∧
  match r with
  | Some (Returns b) =>
      ∃ chunks,
        map ev_op t = [Request url; add_header "user-agent" user_agent; urlopen]
                      ++ replicate (S (length chunks)) (response_read chk_size)
                      ++ [response_exit]
        ∧ chunks_of t = chunks ++ [[]] ∧ Forall (λ c, c ≠ []) chunks
        ∧ b = concat chunks ∧ failures t = []
  | Some (Raises f) => last (failures t) = Some f
  | None =>
      length (chunks_of t) = fuel ∧ Forall (λ c, c ≠ []) (chunks_of t)
      ∧ failures t = []
  end.

(** A response that serves [body]: the state is what is left to read;
    [read(amt)] gives the next [amt] bytes, everything that is left when
    [amt] is negative, and nothing once the body is exhausted. *)
Definition serving : environment ans bytes := λ o left,
  match o as o' return reply (ans o') * bytes with
  | response_read amt =>
      if (amt <? 0)%Z then (Done left, [])
      else (Done (take (Z.to_nat amt) left), drop (Z.to_nat amt) left)
  | Request _ => (Done tt, left)
  | add_header _ _ => (Done tt, left)
  | urlopen => (Done tt, left)
  | response_exit => (Done tt, left)
  end.

(** A response whose reads fail. *)
Definition dropping : environment ans unit := λ o w,
  match o as o' return reply (ans o') * unit with
  | response_read _ => (Failed (Failure true "Connection reset by peer"), w)
  | Request _ => (Done tt, w)
  | add_header _ _ => (Done tt, w)
  | urlopen => (Done tt, w)
  | response_exit => (Done tt, w)
  end.

(** Five bytes, for concrete runs. *)
Definition hello : bytes := [Byte.x68; Byte.x65; Byte.x6c; Byte.x6c; Byte.x6f].

End fetch.

(** ** More of what is read off a trace of [owid] calls *)

Module owid_observe.
Import owid owid_trace.


(** [_is_forbidden_error] holds of the error and [_is_non_redistributable]
    does not: the case in which the [except] clauses turn to the archive. *)
Definition forbidden_only (e : raised) : bool :=
  _is_forbidden_error e && negb (_is_non_redistributable e).

(** The call raised an error that [class] accepts. *)
Definition raised_with (class : raised → bool) (ev : event ans) : bool :=
  match failure_of ev with
  | Some f => class (Propagated f)
  | None => false
  end.

(** The call is the existence check of [p], and it answered [b]. *)
Definition answers_exists (p : string) (b : bool) (ev : event ans) : bool :=
  match ev_op ev as o return reply (ans o) → bool with
  | Path_exists q => λ r,
      String.eqb q p && match r with Done c => Bool.eqb c b | Failed _ => false end
  | _ => λ _, false
  end (ev_reply ev).

(** Some existence check of [p] made during the run answered [True]. *)
Definition seen_existing (p : string) (t : trace ans) : bool :=
  existsb (answers_exists p true) t.

(** The call is a download from [url] that returned [ret]. *)
Definition download_returned (url : string) (ret : option string) (ev : event ans) : bool :=
  match ev_op ev as o return reply (ans o) → bool with
  | url_to_file_download u _ _ => λ r,
      String.eqb u url &&
      match r with Done x => bool_decide (x = ret) | Failed _ => false end
  | _ => λ _, false
  end (ev_reply ev).

(** The call is [stat] on [p], and it returned. *)
Definition stat_returned (p : string) (ev : event ans) : bool :=
  match ev_op ev with
  | Path_stat q => String.eqb q p
  | _ => false
  end &&
  match failure_of ev with
  | None => true
  | Some _ => false
  end.

(** Consecutive calls: the trace starts with calls of which the
    predicates hold, one each, in order. *)
Fixpoint starts_with (ps : list (event ans → bool)) (t : trace ans) : bool :=
  match ps, t with
  | [], _ => true
  | P :: ps', ev :: t' => P ev && starts_with ps' t'
  | _ :: _, [] => false
  end.

(** Somewhere in the trace there are such consecutive calls. *)
Fixpoint occurs (ps : list (event ans → bool)) (t : trace ans) : bool :=
  starts_with ps t ||
  match t with
  | [] => false
  | _ :: t' => occurs ps t'
  end.

(** The download from [url] gave nothing to return: it returned [None] or
    the empty path, or it returned a path at which the existence check
    made next found no file. *)
Definition came_to_nothing (url : string) (t : trace ans) : Prop :=
  existsb (download_returned url None) t = true
  ∨ existsb (download_returned url (Some "")) t = true
  ∨ ∃ p, occurs [download_returned url (Some p); answers_exists p false] t = true.

(** The same exception: the same class, as far as [except Exception]
    tells, and the same message. *)
Definition failure_eqb (f g : failure) : bool :=
  Bool.eqb (derives_Exception f) (derives_Exception g)
  && String.eqb (message f) (message g).

(** The call raised [f], and [f] is not one of the failures that the
    [try] blocks take care of: it does not derive from [Exception], or the
    call is an existence check. *)
Definition untolerated_with (f : failure) (ev : event ans) : bool :=
  negb (tolerated_event ev) &&
  match failure_of ev with
  | Some g => failure_eqb g f
  | None => false
  end.

(** More of what one call of [_download_from_zip] does: an exception that
    leaves it was raised by one of its calls, and a member that was
    extracted is returned. *)
Definition zip_post_more (root slug : string)
    (t : trace ans) (r : outcome (option string * option string)) : Prop :=
  (∀ e, r = Raises e →
     ∃ f, e = Propagated f ∧ existsb (untolerated_with f) t = true) ∧
  (∀ c j, r = Returns (c, j) →
     (existsb (extracts (slug +:+ ".csv") (csv_path root slug)) t = true →
      c = Some (csv_path root slug)) ∧
     (existsb (extracts (slug +:+ ".metadata.json") (json_path root slug)) t = true →
      j = Some (json_path root slug))).

(** A provider that answers every download without a file: the download
    returns [None], and no path exists. *)
Definition quiet : environment ans unit := λ o w,
  (match o as o' return reply (ans o') with
   | Path_exists _ => Done false
   | Path_stat _ => Failed no_such_file
   | Path_unlink _ => Failed no_such_file
   | Path_read_text _ => Failed no_such_file
   | json_title _ slug => Done slug
   | url_to_file_download _ _ _ => Done None
   | ZipFile _ => Failed no_such_file
   | ZipFile_exit _ => Done tt
   | extract_member _ _ _ => Failed no_such_file
   end, w).

(** Every download is interrupted from the keyboard. *)
Definition interrupted_site : site :=
  Site (λ _, Some (Failure false "KeyboardInterrupt")) [] None.

End owid_observe.

(** * Facts *)

(** ** Programs and runs *)

Section ProgramFacts.
Context {op : Type} {ans : op → Type}.

Lemma wp_mono {R} (p : prog ans R) (Q Q' : trace ans → R → Prop) :
  (∀ t r, Q t r → Q' t r) → wp p Q → wp p Q'.
Proof.
  revert Q Q'. induction p as [r | o k IH]; simpl; intros Q Q' HQ Hp.
  - by apply HQ.
  - intros x. eapply IH; [| apply Hp]. intros t r. apply HQ.
Qed.

Lemma wp_conj {R} (p : prog ans R) (Q1 Q2 : trace ans → R → Prop) :
  wp p Q1 → wp p Q2 → wp p (λ t r, Q1 t r ∧ Q2 t r).
Proof.
  revert Q1 Q2. induction p as [r | o k IH]; simpl; intros Q1 Q2 H1 H2; [done |].
  intros x. by apply IH.
Qed.

Lemma wp_bind {A B} (p : prog ans A) (f : A → prog ans B) (Q : trace ans → B → Prop) :
  wp p (λ t1 a, wp (f a) (λ t2 b, Q (t1 ++ t2) b)) → wp (bind p f) Q.
Proof.
  revert Q. induction p as [a | o k IH]; simpl; intros Q Hp.
  - exact Hp.
  - intros x. apply IH. apply Hp.
Qed.

(** What [wp] promises holds of every run. *)
Lemma wp_run {W R} (env : environment ans W) (p : prog ans R) (w : W)
    (Q : trace ans → R → Prop) :
  wp p Q → Q (calls (run env p w)) (result (run env p w)).
Proof.
  unfold calls, result.
  revert w Q. induction p as [r | o k IH]; simpl; intros w Q Hp.
  - exact Hp.
  - destruct (env o w) as [x w1].
    specialize (IH x w1 _ (Hp x)).
    destruct (run env (k x) w1) as [[r w2] t]. exact IH.
Qed.

(** The trace of a run records what the environment replied. *)
Lemma run_answered {W R} (env : environment ans W) (p : prog ans R) (w : W) :
  answered env w (calls (run env p w)) (world (run env p w)).
Proof.
  revert w. induction p as [r | o k IH]; intros w; simpl; [done |].
  destruct (env o w) as [x w1] eqn:E.
  specialize (IH x w1). destruct (run env (k x) w1) as [[r w2] t].
  simpl. exists w1. split; [exact E | exact IH].
Qed.

Lemma answered_last {W} (env : environment ans W) (w w' : W) (t : trace ans) ev :
  answered env w t w' → last t = Some ev →
  ∃ w1, env (ev_op ev) w1 = (ev_reply ev, w').
Proof.
  revert w. induction t as [| e t IH]; intros w Ha Hl; [done |].
  destruct Ha as (w1 & He & Ha).
  destruct t as [| e' t].
  - injection Hl as <-. simpl in Ha. subst w'. eauto.
  - apply (IH w1 Ha). exact Hl.
Qed.

Lemma last_existsb (P : event ans → bool) (t : trace ans) ev :
  last t = Some ev → P ev = true → existsb P t = true.
Proof.
  induction t as [| e t IH]; [done |].
  destruct t as [| e' t].
  - intros [= <-] HP. simpl. by rewrite HP.
  - intros Hl HP. change (P e || existsb P (e' :: t) = true).
    rewrite (IH Hl HP). apply orb_true_r.
Qed.
End ProgramFacts.

(** ** Strings *)

Lemma append_nil (s : string) : "" +:+ s = s.
Proof. reflexivity. Qed.

Lemma append_cons (c : ascii) (s t : string) : String c s +:+ t = String c (s +:+ t).
Proof. reflexivity. Qed.

Lemma append_nonempty (a b : string) : b ≠ "" → a +:+ b ≠ "".
Proof. destruct a; [done |]. intros _. discriminate. Qed.

Lemma prefix_app (pat rest : string) : String.prefix pat (pat +:+ rest) = true.
Proof.
  induction pat as [| c pat IH]; rewrite ?append_nil, ?append_cons; simpl.
  - by destruct rest.
  - by destruct (ascii_dec c c).
Qed.

Lemma contains_mid (pat s rest : string) : contains pat (s +:+ pat +:+ rest) = true.
Proof.
  induction s as [| c s IH]; [rewrite append_nil | rewrite (append_cons c s)].
  - pose proof (prefix_app pat rest) as H.
    destruct (pat +:+ rest); cbn [contains]; by rewrite H.
  - cbn [contains]. rewrite IH. apply orb_true_r.
Qed.

Lemma startswith_word (c d : ascii) (s : string) :
  is_word_char c = true → is_word_char d = false →
  startswith (String c s) (String d EmptyString) = false.
Proof.
  intros Hc Hd. unfold startswith. simpl.
  destruct (ascii_dec d c) as [-> |]; [congruence | done].
Qed.

(** ** The resolver [grab] *)

Module base_facts.
Import base.

Lemma span_word_scheme (s rest : string) :
  all_word s = true → span_word (s +:+ "://" +:+ rest) = (s, "://" +:+ rest).
Proof.
  induction s as [| c s IH]; [done | rewrite (append_cons c s); simpl].
  intros [Hc Hs]%andb_true_iff. by rewrite Hc, (IH Hs).
Qed.

Lemma span_word_app (key : string) : key = (span_word key).1 +:+ (span_word key).2.
Proof.
  induction key as [| k key IH]; simpl; [done |].
  destruct (is_word_char k); [| done].
  destruct (span_word key) as [w r]. simpl in *. by rewrite (append_cons k w), <- IH.
Qed.

Lemma startswith_app (s pre : string) :
  startswith s pre = true → s = pre +:+ string_drop (String.length pre) s.
Proof.
  unfold startswith. revert s. induction pre as [| p pre IH]; intros s; [done |].
  destruct s as [| c s]; simpl; [done |].
  destruct (ascii_dec p c) as [-> |]; [| done].
  intros H. by rewrite (append_cons c pre), <- (IH s H).
Qed.

Lemma take_line_app (r : string) :
  ∃ tail, r = take_line r +:+ tail ∧ no_newline (take_line r) = true
    ∧ (tail = "" ∨ ∃ c t, tail = String c t ∧ is_newline c = true).
Proof.
  induction r as [| c r (tail & Hr & Hn & Ht)]; simpl.
  - exists "". by auto.
  - destruct (is_newline c) eqn:Hc.
    + exists (String c r). split; [done |]. split; [done |]. right. by eauto.
    + exists tail. rewrite (append_cons c (take_line r)), <- Hr. simpl. by rewrite Hc.
Qed.

Lemma span_word_all_word (key : string) : all_word (span_word key).1 = true.
Proof.
  induction key as [| k key IH]; simpl; [done |].
  destruct (is_word_char k) eqn:Hk; [| done].
  destruct (span_word key) as [w r]. simpl in *. by rewrite Hk, IH.
Qed.

(** A key that starts with a scheme name does not start with a separator. *)
Lemma scheme_not_separator (s rest : string) :
  scheme_shaped s = true →
  startswith (s +:+ rest) "/" || startswith (s +:+ rest) "\" = false.
Proof.
  intros H. destruct s as [| c s]; [done |]. rewrite (append_cons c s).
  simpl in H. apply andb_true_iff in H as [Hc _].
  by rewrite !(startswith_word c) by done.
Qed.

(** The pattern matches [s://rest] when [s] is a scheme name and [rest]
    starts with a character other than the line feed; group 1 is [s]. *)
Lemma protocol_sep_p_scheme (s rest : string) (c : ascii) :
  scheme_shaped s = true → is_newline c = false →
  ∃ ref, protocol_sep_p (s +:+ "://" +:+ String c rest) = Some (s, ref).
Proof.
  intros Hs Hc. unfold protocol_sep_p.
  rewrite span_word_scheme by (by destruct s).
  destruct s as [| a s]; [done |].
  simpl. rewrite Hc. eauto.
Qed.

(** The pattern matches no key outside the shape scheme, [://], non-empty
    remainder. *)
Lemma protocol_sep_p_shape (key : string) :
  scheme_rest_shape key = false → protocol_sep_p key = None.
Proof.
  unfold scheme_rest_shape, protocol_sep_p.
  pose proof (span_word_all_word key) as Hw.
  destruct (span_word key) as [w r]. simpl in Hw.
  destruct w as [| a w]; [done |].
  unfold scheme_shaped. rewrite Hw. cbn [andb].
  destruct (startswith r "://"); [| done].
  destruct (string_drop 3 r) as [| d r']; cbn [take_line]; [done |].
  by destruct (is_newline d).
Qed.

(** What a match of the pattern is, in terms of the key alone: the key is
    group 1, [://], group 2 and a tail; group 1 is one or more word
    characters, group 2 is one or more characters none of which is a line
    feed, and the tail is empty or starts with a line feed. *)
Lemma protocol_sep_p_sound (key g1 g2 : string) :
  protocol_sep_p key = Some (g1, g2) →
  ∃ tail, key = g1 +:+ "://" +:+ g2 +:+ tail
    ∧ scheme_shaped g1 = true ∧ g2 ≠ "" ∧ no_newline g2 = true
    ∧ (tail = "" ∨ ∃ c t, tail = String c t ∧ is_newline c = true).
Proof.
  unfold protocol_sep_p.
  pose proof (span_word_all_word key) as Hw.
  pose proof (span_word_app key) as Hk.
  destruct (span_word key) as [w r]. simpl in Hw, Hk.
  destruct w as [| a w]; [done |].
  destruct (startswith r "://") eqn:Hp; [| done].
  apply startswith_app in Hp. simpl String.length in Hp.
  destruct (take_line_app (string_drop 3 r)) as (tail & Hr & Hn & Ht).
  destruct (take_line (string_drop 3 r)) as [| d ref] eqn:Hl; [done |].
  intros [= <- <-]. exists tail.
  split; [by rewrite Hk, Hp, Hr at 1 |]. done.
Qed.

(** The shape test says what its name says. *)
Lemma scheme_rest_shape_iff (key : string) :
  scheme_rest_shape key = true ↔
  ∃ s rest, key = s +:+ "://" +:+ rest ∧ scheme_shaped s = true ∧ rest ≠ "".
Proof.
  unfold scheme_rest_shape. split.
  - pose proof (span_word_app key) as Hk.
    destruct (span_word key) as [w r]. simpl in Hk.
    intros [[Hs Hp]%andb_true_iff Hd]%andb_true_iff.
    apply startswith_app in Hp. simpl String.length in Hp.
    exists w, (string_drop 3 r). split; [by rewrite Hk, Hp at 1 |].
    split; [done |]. by destruct (string_drop 3 r).
  - intros (s & rest & -> & Hs & Hr).
    rewrite span_word_scheme by (by destruct s).
    rewrite Hs. destruct rest; done.
Qed.

Section Dispatch.
Context {Content : Type}.
Implicit Types (protocols : gmap string (handler Content)).

(** C3 (as amended). For a scheme [s] of one or more word characters that
    is registered with handler [h], and a remainder whose first character
    is not a line feed, the program of [grab] on [s://rest] is the program
    of [h] on that same key: the handler is what runs, once, on the whole
    key, and what it returns or raises is what [grab] returns or raises. *)
Theorem grab_registered protocols (s : string) (h : handler Content)
    (c : ascii) (rest : string) :
  protocols !! s = Some h → scheme_shaped s = true → is_newline c = false →
  grab protocols (s +:+ "://" +:+ String c rest) = h (s +:+ "://" +:+ String c rest).
Proof.
  intros Hh Hs Hc. unfold grab.
  rewrite scheme_not_separator by done.
  rewrite contains_mid.
  destruct (protocol_sep_p_scheme s rest c Hs Hc) as [ref ->].
  cbv beta iota zeta. by rewrite Hh.
Qed.

(** C4 (as amended). For a scheme [z] of one or more word characters that
    is not registered, and a remainder whose first character is not a line
    feed, [grab] on [z://rest] raises [KeyError] naming [z] and makes no
    call at all: neither a handler nor [get_obj] runs. *)
Theorem grab_unregistered protocols (z : string) (c : ascii) (rest : string) :
  protocols !! z = None → scheme_shaped z = true → is_newline c = false →
  grab protocols (z +:+ "://" +:+ String c rest)
  = Ret (Raises (KeyError ("Unrecognized protocol: " +:+ z))).
Proof.
  intros Hh Hs Hc. unfold grab.
  rewrite scheme_not_separator by done.
  rewrite contains_mid.
  destruct (protocol_sep_p_scheme z rest c Hs Hc) as [ref ->].
  cbv beta iota zeta. by rewrite Hh.
Qed.

(** C7. On a key that starts with [/] or with a backslash, [grab] is the
    same program as on [file://] followed by the key: same calls, same
    result, same exception. *)
Theorem grab_leading_separator protocols (key : string) :
  startswith key "/" || startswith key "\" = true →
  grab protocols key = grab protocols ("file://" +:+ key).
Proof.
  intros H. unfold grab at 1. rewrite H. unfold grab. done.
Qed.

(** C10 (as amended). On a key that does not start with a separator,
    contains [://] and is not of the shape scheme, [://], non-empty
    remainder, [grab] is the call of [get_obj] on the key as given: its
    value is returned and its exception propagates. *)
Theorem grab_other_shapes protocols (key : string) :
  startswith key "/" || startswith key "\" = false →
  contains "://" key = true →
  scheme_rest_shape key = false →
  grab protocols key = passthrough (get_obj key).
Proof.
  intros Hsep Hin Hshape. unfold grab. rewrite Hsep, Hin.
  by rewrite protocol_sep_p_shape.
Qed.
End Dispatch.

Lemma grab_registered_witness :
  protocols true true !! "file" = Some (get_local_file_bytes_or_folder_mapping (Content := string))
  ∧ scheme_shaped "file" = true ∧ is_newline "/" = false
  ∧ grab (protocols true true) ("file" +:+ "://" +:+ String "/" "tmp/x")
    = get_local_file_bytes_or_folder_mapping (Content := string)
        ("file" +:+ "://" +:+ String "/" "tmp/x").
Proof.
  split; [reflexivity |]. split; [reflexivity |]. split; [reflexivity |].
  apply (grab_registered (protocols true true) "file"); reflexivity.
Defined.

Lemma grab_unregistered_witness :
  protocols (Content := string) true true !! "s3" = None
  ∧ scheme_shaped "s3" = true ∧ is_newline "b" = false
  ∧ grab (protocols (Content := string) true true) ("s3" +:+ "://" +:+ String "b" "ucket/k")
    = Ret (Raises (KeyError ("Unrecognized protocol: " +:+ "s3"))).
Proof.
  split; [reflexivity |]. split; [reflexivity |]. split; [reflexivity |].
  apply (grab_unregistered (protocols true true) "s3"); reflexivity.
Defined.

Lemma grab_leading_separator_witness :
  startswith "/data" "/" || startswith "/data" "\" = true
  ∧ grab (protocols (Content := string) true true) "/data"
    = grab (protocols true true) ("file://" +:+ "/data").
Proof.
  split; [reflexivity |].
  apply (grab_leading_separator (protocols true true) "/data"); reflexivity.
Defined.

Lemma grab_other_shapes_witness :
  startswith "my-scheme://x" "/" || startswith "my-scheme://x" "\" = false
  ∧ contains "://" "my-scheme://x" = true
  ∧ scheme_rest_shape "my-scheme://x" = false
  ∧ grab (protocols (Content := string) true true) "my-scheme://x"
    = passthrough (get_obj "my-scheme://x").
Proof.
  split; [reflexivity |]. split; [reflexivity |]. split; [reflexivity |].
  apply (grab_other_shapes (protocols true true) "my-scheme://x"); reflexivity.
Defined.

(** C3 as stated fails: [file] is registered and the line feed is a
    non-empty remainder, yet [grab] calls [get_obj] on the key, where the
    handler would have looked at the file system. *)
Lemma grab_registered_newline_rest :
  let key := "file" +:+ "://" +:+ LF in
  let h := get_local_file_bytes_or_folder_mapping (Content := string) in
  protocols true true !! "file" = Some h
  ∧ LF ≠ ""
  ∧ map ev_op (calls (run demo (grab (protocols true true) key) tt)) = [get_obj key]
  ∧ map ev_op (calls (run demo (h key) tt)) = [os_path_isdir LF; open_rb_read LF].
Proof.
  intros key h. split; [reflexivity |]. split; [discriminate |].
  split; vm_compute; reflexivity.
Qed.

(** C4 as stated fails: [zz] is not registered, yet on [zz://] and on
    [zz://] followed by a line feed [grab] does not raise [KeyError]; it
    calls [get_obj] and lets its exception through. *)
Lemma grab_unregistered_empty_rest :
  protocols (Content := string) true true !! "zz" = None
  ∧ scheme_shaped "zz" = true
  ∧ run demo (grab (protocols true true) ("zz" +:+ "://" +:+ "")) tt
    = (Raises (Propagated (Failure true "No module named zz://")), tt,
       [Ev (get_obj "zz://") (Failed (Failure true "No module named zz://"))])
  ∧ map ev_op (calls (run demo (grab (protocols true true) ("zz" +:+ "://" +:+ LF +:+ "x")) tt))
    = [get_obj ("zz://" +:+ LF +:+ "x")].
Proof. repeat split; vm_compute; reflexivity. Qed.

(** C10 as stated fails: [/a://b] contains [://] and is not of the shape
    scheme, [://], remainder, yet [grab] runs the [file] handler on it, and
    with nothing registered it raises the unrecognized-scheme error. *)
Lemma grab_separator_with_scheme :
  contains "://" "/a://b" = true
  ∧ scheme_rest_shape "/a://b" = false
  ∧ map ev_op (calls (run demo (grab (protocols true true) "/a://b") tt))
    = [os_path_isdir "/a://b"; open_rb_read "/a://b"]
  ∧ result (run demo (grab ∅ "/a://b") tt)
    = Raises (KeyError "Unrecognized protocol: file").
Proof. repeat split; vm_compute; reflexivity. Qed.

End base_facts.

(** ** The acquirer [acquire_owid_data] *)

Module owid_facts.
Import owid owid_trace.

(** *** Rules for statements *)

Lemma pwp_mono {A} (m : proc A) s (Q Q' : trace ans → outcome A → frame → Prop) :
  (∀ t r s', Q t r s' → Q' t r s') → pwp m s Q → pwp m s Q'.
Proof. intros H. apply wp_mono. intros t [r s']. apply H. Qed.

Lemma pwp_ret {A} (a : A) s Q : Q [] (Returns a) s → pwp (ret a) s Q.
Proof. done. Qed.
Lemma pwp_raise {A} e s (Q : trace ans → outcome A → frame → Prop) :
  Q [] (Raises e) s → pwp (raise e) s Q.
Proof. done. Qed.
Lemma pwp_lift {A} (r : outcome A) s Q : Q [] r s → pwp (lift r) s Q.
Proof. done. Qed.
Lemma pwp_read {A} (field : frame → A) s Q : Q [] (Returns (field s)) s → pwp (read field) s Q.
Proof. done. Qed.
Lemma pwp_assign update s Q : Q [] (Returns tt) (update s) → pwp (assign update) s Q.
Proof. done. Qed.
Lemma pwp_perform o s Q :
  (∀ x, Q [Ev o (Done x)] (Returns x) s) →
  (∀ f, Q [Ev o (Failed f)] (Raises (Propagated f)) s) →
  pwp (perform o) s Q.
Proof. intros H1 H2 [x|f]; simpl; auto. Qed.

Lemma pwp_seq {A B} (m : proc A) (f : A → proc B) s Q :
  pwp m s (λ t1 r s1,
    match r with
    | Returns a => pwp (f a) s1 (λ t2 r2 s2, Q (t1 ++ t2) r2 s2)
    | Raises e => Q t1 (Raises e) s1
    end) →
  pwp (seq m f) s Q.
Proof.
  intros H. unfold pwp, seq. apply wp_bind. eapply wp_mono; [| exact H].
  intros t [[a|e] s1]; simpl; [done |]. by rewrite app_nil_r.
Qed.

Lemma pwp_try_except {A} (body : proc A) handler s Q :
  pwp body s (λ t1 r s1,
    match r with
    | Returns a => Q t1 (Returns a) s1
    | Raises e =>
        if is_Exception e
        then pwp (handler e) s1 (λ t2 r2 s2, Q (t1 ++ t2) r2 s2)
        else Q t1 (Raises e) s1
    end) →
  pwp (try_except body handler) s Q.
Proof.
  intros H. unfold pwp, try_except. apply wp_bind. eapply wp_mono; [| exact H].
  intros t [[a|e] s1]; simpl; [by rewrite app_nil_r |].
  destruct (is_Exception e); simpl; [done | by rewrite app_nil_r].
Qed.

Lemma pwp_try_finally {A} (body : proc A) cleanup s Q :
  pwp body s (λ t1 r s1,
    pwp cleanup s1 (λ t2 c s2,
      match c with
      | Returns _ => Q (t1 ++ t2) r s2
      | Raises e => Q (t1 ++ t2) (Raises e) s2
      end)) →
  pwp (try_finally body cleanup) s Q.
Proof.
  intros H. unfold pwp, try_finally. apply wp_bind. eapply wp_mono; [| exact H].
  intros t [r s1]; simpl. intros H'. apply wp_bind. eapply wp_mono; [| exact H'].
  intros t2 [[u|e] s2]; simpl; by rewrite app_nil_r.
Qed.

Lemma pwp_conj {A} (m : proc A) s (Q1 Q2 : trace ans → outcome A → frame → Prop) :
  pwp m s Q1 → pwp m s Q2 → pwp m s (λ t r s', Q1 t r s' ∧ Q2 t r s').
Proof. apply wp_conj. Qed.

(** The three uses of [slug_to_url_and_filename]: none raises. *)
Lemma slug_zip slug rootdir :
  slug_to_url_and_filename slug "zip" rootdir
  = Returns (zip_url slug, os_path_join rootdir (slug +:+ ".zip")).
Proof. reflexivity. Qed.
Lemma slug_csv slug rootdir :
  slug_to_url_and_filename slug "csv" rootdir
  = Returns (csv_url slug, os_path_join rootdir (slug +:+ ".csv")).
Proof. reflexivity. Qed.
Lemma slug_json slug rootdir :
  slug_to_url_and_filename slug "json" rootdir
  = Returns (json_url slug, os_path_join rootdir (slug +:+ ".metadata.json")).
Proof. reflexivity. Qed.

(** *** Addresses, paths and traces *)

Lemma url_suffix_neq slug a b :
  a ≠ b → String.eqb (base_url slug +:+ a) (base_url slug +:+ b) = false.
Proof.
  intros H. apply String.eqb_neq. intros E. apply H.
  by apply (inj (String.append (base_url slug))) in E.
Qed.

Lemma csv_not_zip slug : String.eqb (csv_url slug) (zip_url slug) = false.
Proof. by apply url_suffix_neq. Qed.
Lemma json_not_zip slug : String.eqb (json_url slug) (zip_url slug) = false.
Proof. by apply url_suffix_neq. Qed.
Lemma zip_not_csv slug : String.eqb (zip_url slug) (csv_url slug) = false.
Proof. by apply url_suffix_neq. Qed.
Lemma json_not_csv slug : String.eqb (json_url slug) (csv_url slug) = false.
Proof. by apply url_suffix_neq. Qed.
Lemma zip_not_json slug : String.eqb (zip_url slug) (json_url slug) = false.
Proof. by apply url_suffix_neq. Qed.
Lemma csv_not_json slug : String.eqb (csv_url slug) (json_url slug) = false.
Proof. by apply url_suffix_neq. Qed.

Lemma downloads_app url t1 t2 : downloads url (t1 ++ t2) = downloads url t1 + downloads url t2.
Proof. induction t1 as [| ev t1 IH]; simpl; [done | rewrite IH; lia]. Qed.

Lemma no_download_downloads url t : no_download t = true → downloads url t = 0.
Proof.
  induction t as [| [o x] t IH]; simpl; [done |].
  intros [Ho Ht]%andb_true_iff. rewrite (IH Ht).
  by destruct o.
Qed.

Lemma bd_in_empty (slug : string) (d : Decision (slug ∈ (∅ : gset string))) :
  @bool_decide _ d = false.
Proof. by apply bool_decide_eq_false_2. Qed.
Lemma bd_in_add (slug : string) (X : gset string) (d : Decision (slug ∈ {[slug]} ∪ X)) :
  @bool_decide _ d = true.
Proof. apply bool_decide_eq_true_2. set_solver. Qed.

Lemma os_path_join_nonempty (a b : string) : b ≠ "" → os_path_join a b ≠ "".
Proof.
  intros Hb. unfold os_path_join.
  destruct (startswith b "/"); [done |].
  destruct a as [| c a]; [done |].
  destruct (endswith_sep (String c a)); discriminate.
Qed.

Lemma truthy_join (a s suffix : string) :
  suffix ≠ "" → truthy (Some (os_path_join a (s +:+ suffix))) = true.
Proof.
  intros H. pose proof (os_path_join_nonempty a (s +:+ suffix) (append_nonempty _ _ H)).
  by destruct (os_path_join a (s +:+ suffix)).
Qed.

Lemma extracts_hit p member dest x :
  extracts member dest (Ev (extract_member p member dest) (Done x)) = true.
Proof. unfold extracts. cbn. by rewrite !String.eqb_refl. Qed.

Lemma no_download_raised url class t :
  no_download t = true → existsb (download_raised url class) t = false.
Proof.
  induction t as [| [o x] t IH]; simpl; [done |].
  intros [Ho Ht]%andb_true_iff. rewrite (IH Ht).
  by destruct o.
Qed.

Lemma no_download_follows url zip t :
  no_download t = true → fallback_follows url zip t = false.
Proof.
  induction t as [| [o x] t IH]; simpl; [done |].
  intros [Ho Ht]%andb_true_iff. rewrite (IH Ht).
  by destruct o.
Qed.

Lemma downloads_zero_raised url class t :
  downloads url t = 0 → existsb (download_raised url class) t = false.
Proof.
  induction t as [| ev t IH]; simpl; [done |].
  unfold download_raised at 1.
  destruct (is_download url (ev_op ev)); simpl; [lia | auto].
Qed.

Lemma downloads_zero_follows url zip t :
  downloads url t = 0 → fallback_follows url zip t = false.
Proof.
  induction t as [| ev t IH]; simpl; [done |].
  unfold download_raised at 1.
  destruct (is_download url (ev_op ev)); simpl; [lia | auto].
Qed.

Lemma follows_app url zip t1 t2 :
  (∀ ev t', t2 = ev :: t' → is_download zip (ev_op ev) = false) →
  fallback_follows url zip (t1 ++ t2)
  = fallback_follows url zip t1 || fallback_follows url zip t2.
Proof.
  intros Hhead. induction t1 as [| ev t1 IH]; [reflexivity |].
  cbn [app fallback_follows]. rewrite IH.
  destruct t1 as [| ev1 t1]; cbn [app].
  - destruct t2 as [| ev2 t2]; cbn [fallback_follows];
      rewrite ?(Hhead ev2 t2 eq_refl), ?andb_false_r; reflexivity.
  - cbn [fallback_follows]. by rewrite !orb_assoc.
Qed.

Lemma tolerated_app t1 t2 : tolerated (t1 ++ t2) = tolerated t1 && tolerated t2.
Proof. apply forallb_app. Qed.

Lemma exists_checks_app p b t1 t2 :
  exists_checks p b (t1 ++ t2) = exists_checks p b t1 && exists_checks p b t2.
Proof. apply forallb_app. Qed.

(** *** Going through a statement, one call at a time *)

Ltac pwp_rule :=
  lazymatch goal with
  | |- pwp (seq _ _) _ _ => apply pwp_seq
  | |- pwp (ret _) _ _ => apply pwp_ret
  | |- pwp (raise _) _ _ => apply pwp_raise
  | |- pwp (lift (slug_to_url_and_filename _ "zip" _)) _ _ => rewrite slug_zip; apply pwp_lift
  | |- pwp (lift (slug_to_url_and_filename _ "csv" _)) _ _ => rewrite slug_csv; apply pwp_lift
  | |- pwp (lift (slug_to_url_and_filename _ "json" _)) _ _ => rewrite slug_json; apply pwp_lift
  | |- pwp (read _) _ _ => apply pwp_read
  | |- pwp (assign _) _ _ => apply pwp_assign
  | |- pwp (perform _) _ _ => apply pwp_perform; intros ?
  | |- pwp (try_except _ _) _ _ => apply pwp_try_except
  | |- pwp (try_finally _ _) _ _ => apply pwp_try_finally
  | |- pwp (if ?b then _ else _) _ _ => destruct b eqn:?
  | |- pwp (match ?x with _ => _ end) _ _ => destruct x eqn:?
  | |- if ?b then _ else _ => destruct b eqn:?
  | |- match ?x with _ => _ end => destruct x eqn:?
  end.

Ltac pwp_simpl :=
  cbv beta iota zeta delta [is_Exception fst snd]; cbn [app].

Ltac pwp_go unf := repeat (first [pwp_rule | unf ()]; pwp_simpl).

Ltac head_of t := lazymatch t with ?f _ => head_of f | _ => t end.

Ltac unfold_zip :=
  lazymatch goal with
  | |- pwp ?m _ _ =>
      let h := head_of m in
      lazymatch h with
      | @_download_from_zip => unfold _download_from_zip
      | @download_zip => unfold download_zip
      | @extract_from_zip => unfold extract_from_zip
      | @extract_one => unfold extract_one
      | @with_ZipFile => unfold with_ZipFile
      end
  end.

Ltac url_simpl_in H :=
  rewrite ?String.eqb_refl, ?csv_not_zip, ?json_not_zip, ?zip_not_csv,
    ?json_not_csv, ?zip_not_json, ?csv_not_json in H.

Ltac url_simpl :=
  rewrite ?String.eqb_refl, ?csv_not_zip, ?json_not_zip, ?zip_not_csv,
    ?json_not_csv, ?zip_not_json, ?csv_not_json.

Ltac zip_side :=
  match goal with
  | H : negb (bool_decide (_ ∈ ?X)) = true |- _ ∉ ?X =>
      by apply negb_true_iff, bool_decide_eq_false_1 in H
  | H : _ && negb (bool_decide (_ ∈ ?X)) = true |- _ ∉ ?X =>
      apply andb_true_iff in H as [_ H];
      by apply negb_true_iff, bool_decide_eq_false_1 in H
  | |- _ ∉ ∅ => apply not_elem_of_empty
  end.

Ltac frame_cbn :=
  cbn [attempted_zip csv_file json_file json_file_from_zip csv_ok json_ok
       set_attempted_zip set_csv_file set_json_file set_json_file_from_zip
       set_csv_ok set_json_ok fresh_frame bound_and_truthy default truthy].

Ltac frame_simpl :=
  frame_cbn;
  lazymatch goal with
  | |- pwp (if ?b then _ else _) _ _ =>
      lazymatch b with
      | context [bool_decide (_ ∈ attempted_zip ?s)] =>
          try (match goal with
               | H : attempted_zip s = _ |- _ => rewrite H
               end; rewrite ?bd_in_add; cbn [negb];
               rewrite ?andb_false_r, ?andb_true_r)
      | context [bool_decide (_ ∈ ∅)] =>
          rewrite bd_in_empty; cbn [negb]; rewrite ?andb_false_r, ?andb_true_r
      | truthy (Some (os_path_join _ (_ +:+ _))) => rewrite truthy_join by done
      | _ && negb false => cbn [negb]; rewrite andb_true_r
      | _ => idtac
      end
  | |- _ => idtac
  end.

Ltac split_andb :=
  repeat match goal with
    | H : _ && _ = true |- _ => apply andb_true_iff in H as [? ?]
    | H : _ || _ = false |- _ => apply orb_false_iff in H as [? ?]
    end.

(** Folds over the concrete part of a trace, then the facts known of its
    abstract tail, then the events one by one. *)
Ltac frame_rw :=
  frame_cbn;
  repeat match goal with
    | H : attempted_zip ?s = _ |- context [attempted_zip ?s] => rewrite H
    | H : csv_file ?s = _ |- context [csv_file ?s] => rewrite H
    | H : json_file ?s = _ |- context [json_file ?s] => rewrite H
    | H : json_file_from_zip ?s = _ |- context [json_file_from_zip ?s] => rewrite H
    end;
  frame_cbn.

Ltac use_Htol :=
  match goal with
  | Htol : _ → ∃ c j, Raises _ = Returns (c, j) |- _ =>
      exfalso; unfold tolerated in Htol; cbn [forallb] in Htol;
      destruct Htol as (? & ? & ?); [by apply andb_true_iff | discriminate]
  end.

Ltac trace_eval :=
  unfold tolerated, exists_checks, download_failed;
  rewrite ?app_nil_r;
  cbn [app downloads existsb forallb fallback_follows];
  repeat match goal with
    | H : no_download ?t = true |- context [downloads ?u ?t] =>
        rewrite (no_download_downloads u t H)
    | H : no_download ?t = true |- context [existsb (download_raised ?u ?c) ?t] =>
        rewrite (no_download_raised u c t H)
    | H : no_download ?t = true |- context [fallback_follows ?u ?z ?t] =>
        rewrite (no_download_follows u z t H)
    | H : existsb ?P ?t = true |- context [existsb ?P ?t] => rewrite H
    end;
  unfold download_raised, extracts, is_download;
  cbn [ev_op ev_reply failure_of];
  repeat match goal with
    | H : _is_non_redistributable ?e = _ |- context [_is_non_redistributable ?e] =>
        rewrite H
    | H : _is_forbidden_error ?e = _ |- context [_is_forbidden_error ?e] =>
        rewrite H
    end;
  url_simpl;
  cbn [negb andb orb Nat.add];
  rewrite ?andb_false_r, ?orb_true_r, ?orb_false_r;
  cbn [negb andb orb Nat.add].

Ltac trace_eval_in H :=
  unfold tolerated, exists_checks, download_failed in H;
  rewrite ?app_nil_r in H;
  cbn [app downloads existsb forallb fallback_follows] in H;
  repeat match type of H with
    | context [downloads ?u ?t] =>
        match goal with H' : no_download t = true |- _ =>
          rewrite (no_download_downloads u t H') in H end
    | context [existsb (download_raised ?u ?c) ?t] =>
        match goal with H' : no_download t = true |- _ =>
          rewrite (no_download_raised u c t H') in H end
    end;
  unfold tolerated_event, check_reply, download_raised, extracts, is_download in H;
  cbn [ev_op ev_reply failure_of is_exists] in H;
  repeat match type of H with
    | context [_is_non_redistributable ?e] =>
        match goal with H' : _is_non_redistributable e = _ |- _ => rewrite H' in H end
    | context [_is_forbidden_error ?e] =>
        match goal with H' : _is_forbidden_error e = _ |- _ => rewrite H' in H end
    | context [derives_Exception ?e] =>
        match goal with H' : derives_Exception e = _ |- _ => rewrite H' in H end
    end;
  url_simpl_in H;
  cbn [negb andb orb Nat.add] in H;
  rewrite ?andb_false_r, ?orb_true_r, ?orb_false_r, ?andb_true_r in H;
  cbn [negb andb orb Nat.add] in H.

(** *** The archive fallback *)

Lemma zip_spec root slug refresh s :
  slug ∉ attempted_zip s →
  pwp (_download_from_zip root refresh slug (csv_path root slug) (json_path root slug)) s
      (zip_post root slug refresh s).
Proof.
  intros Hs.
  pwp_go ltac:(fun _ => unfold_zip).
  { apply andb_true_iff in Heqb as [Hb _]. by apply bool_decide_eq_true_1 in Hb. }
  all: unfold zip_post, zip_path;
    cbn [attempted_zip csv_file json_file json_file_from_zip csv_ok json_ok
         set_attempted_zip set_csv_file set_json_file set_json_file_from_zip
         set_csv_ok set_json_ok];
    (split; [by eexists _, _ |]); (split; [done |]);
    (split; [intros Ht; try by eauto |
             try done; intros c j [= <- <-]; (split; [first [by left | right] | first [by left | right]])]).
  all: try (split; [done |]; cbn; rewrite !extracts_hit; cbn; rewrite ?orb_true_r; done).
  all: try (exfalso; cbn in Ht;
    repeat match goal with H : derives_Exception _ = false |- _ => rewrite H in Ht end;
    cbn in Ht; rewrite ?andb_false_r in Ht; cbn in Ht; rewrite ?andb_false_r in Ht; done).
Qed.

Ltac unfold_acquire :=
  lazymatch goal with
  | |- pwp (_download_from_zip ?root ?refresh ?slug _ _) ?s _ =>
      let r := fresh "r" in
      let tz := fresh "tz" in let xz := fresh "xz" in
      let Hnd := fresh "Hnd" in let Hatt := fresh "Hatt" in
      let Hcf := fresh "Hcf" in let Hjf := fresh "Hjf" in let Hfz := fresh "Hfz" in
      let Htol := fresh "Htol" in let Hres := fresh "Hres" in
      eapply pwp_mono; [| apply zip_spec; frame_cbn; zip_side];
      intros ? r ? ((xz & tz & -> & Hnd) & (Hatt & Hcf & Hjf & Hfz) & Htol & Hres);
      cbn [attempted_zip csv_file json_file json_file_from_zip csv_ok json_ok
       set_attempted_zip set_csv_file set_json_file set_json_file_from_zip
       set_csv_ok set_json_ok fresh_frame] in Hatt, Hcf, Hjf, Hfz;
      unfold csv_path, json_path, zip_path in *;
      destruct r as [[? ?] | ?];
      [ destruct (Hres _ _ eq_refl) as [[-> | [-> ?]] [-> | [-> ?]]]; clear Hres
      | clear Hres ]
  | |- pwp ?m _ _ =>
      let h := head_of m in
      lazymatch h with
      | @acquire_body => unfold acquire_body
      | @csv_section => unfold csv_section
      | @csv_direct => unfold csv_direct
      | @json_section => unfold json_section
      | @json_direct => unfold json_direct
      end
  end.

Ltac acquire_go :=
  repeat (first [pwp_rule | unfold_acquire]; pwp_simpl; frame_simpl).



(** *** The two blocks of [acquire_owid_data], taken one at a time *)

Section Sections.
Context (root slug : string).
Local Abbreviation cu := (csv_url slug).
Local Abbreviation ju := (json_url slug).
Local Abbreviation zu := (zip_url slug).
Local Abbreviation cp := (os_path_join root (slug +:+ ".csv")).
Local Abbreviation jp := (os_path_join root (slug +:+ ".metadata.json")).
Local Abbreviation cm := (slug +:+ ".csv").
Local Abbreviation jm := (slug +:+ ".metadata.json").
Local Abbreviation csv refresh := (csv_section root refresh slug cu cp jp).
Local Abbreviation json refresh := (json_section root refresh slug ju cp jp).

Lemma csv_zip_budget refresh :
  pwp (csv refresh) fresh_frame (λ t _ s',
    downloads zu t ≤ 1 ∧ (slug ∉ attempted_zip s' → downloads zu t = 0)).
Proof.
  acquire_go.
  all: frame_rw; trace_eval; (split; [lia | intros Hn; try done; exfalso; apply Hn;
       apply elem_of_union_l, elem_of_singleton; reflexivity]).
Qed.

Lemma csv_tolerated refresh :
  pwp (csv refresh) fresh_frame (λ t r _, tolerated t = true → r = Returns tt).
Proof.
  acquire_go.
  all: intros Ht; try done; trace_eval_in Ht; split_andb; try congruence; try use_Htol.
Qed.

Lemma csv_failed refresh :
  pwp (csv refresh) fresh_frame (λ t _ s',
    download_failed cu t = true →
    csv_file s' = None ∨ existsb (extracts cm cp) t = true).
Proof.
  acquire_go.
  all: frame_rw; intros Hf; try (by left); trace_eval_in Hf; try done;
    right; trace_eval; try done.
Qed.

Lemma csv_no_json refresh :
  pwp (csv refresh) fresh_frame (λ t _ _, downloads ju t = 0).
Proof.
  acquire_go.
  all: trace_eval; done.
Qed.

Lemma csv_non_redistributable refresh :
  pwp (csv refresh) fresh_frame (λ t _ s',
    (existsb (download_raised cu _is_non_redistributable) t = true → csv_file s' = None) ∧
    fallback_follows cu zu t = false).
Proof.
  acquire_go.
  all: frame_rw; split; [intros Hf; try done; trace_eval_in Hf; try congruence | trace_eval; try done].
Qed.

Lemma csv_cached :
  pwp (csv false) fresh_frame (λ t _ s',
    exists_checks cp true t = true →
    downloads cu t = 0 ∧ csv_file s' = Some cp).
Proof.
  acquire_go.
  all: frame_rw; intros Hc; try done; trace_eval_in Hc; split_andb; try done.
Qed.

Lemma csv_again :
  pwp (csv false) fresh_frame (λ t _ _,
    exists_checks cp false t = true → 1 ≤ downloads cu t).
Proof.
  acquire_go.
  all: intros Hc; trace_eval_in Hc; split_andb; try done; trace_eval; try lia.
Qed.

Lemma csv_from_zip refresh :
  pwp (csv refresh) fresh_frame (λ t _ s',
    bound_and_truthy (json_file_from_zip s') = true →
    existsb (extracts jm jp) t = true).
Proof.
  acquire_go.
  all: frame_rw; intros Hz; try done; trace_eval; try done.
Qed.

Lemma json_zip_budget refresh s :
  pwp (json refresh) s (λ t _ _,
    downloads zu t ≤ 1 ∧ (slug ∈ attempted_zip s → downloads zu t = 0)).
Proof.
  acquire_go.
  all: frame_rw; trace_eval; (split; [lia | intros Hn; try done]).
  all: exfalso;
    match goal with
    | H : _ && negb (bool_decide ?P) = true, Hn : ?P |- _ =>
        apply andb_true_iff in H as [_ H];
        apply negb_true_iff, bool_decide_eq_false_1 in H; exact (H Hn)
    end.
Qed.

Lemma json_tolerated refresh s :
  pwp (json refresh) s (λ t r _, tolerated t = true → r = Returns tt).
Proof.
  acquire_go.
  all: intros Ht; try done; trace_eval_in Ht; split_andb; try congruence; try use_Htol.
Qed.

Lemma json_failed refresh s :
  pwp (json refresh) s (λ t _ s',
    download_failed ju t = true →
    json_file s' = None ∨ existsb (extracts jm jp) t = true).
Proof.
  acquire_go.
  all: frame_rw; intros Hf; try (by left); trace_eval_in Hf; try done;
    right; trace_eval; try done.
Qed.

Lemma json_no_csv refresh s :
  pwp (json refresh) s (λ t _ s', downloads cu t = 0 ∧ csv_file s' = csv_file s).
Proof.
  acquire_go.
  all: frame_rw; trace_eval; done.
Qed.

Lemma json_head refresh s :
  pwp (json refresh) s (λ t _ _, ∃ x t', t = Ev (Path_exists jp) x :: t').
Proof.
  acquire_go.
  all: rewrite ?app_nil_r; cbn [app]; eauto.
Qed.

Lemma json_non_redistributable refresh s :
  pwp (json refresh) s (λ t _ s',
    (existsb (download_raised ju _is_non_redistributable) t = true → json_file s' = None) ∧
    fallback_follows ju zu t = false).
Proof.
  acquire_go.
  all: frame_rw; split; [intros Hf; try done; trace_eval_in Hf; try congruence | trace_eval; try done].
Qed.

Lemma json_cached s :
  pwp (json false) s (λ t _ s',
    exists_checks jp true t = true →
    downloads ju t = 0 ∧ json_file s' = Some jp).
Proof.
  acquire_go.
  all: frame_rw; intros Hc; try done; trace_eval_in Hc; split_andb; try done.
Qed.

Lemma json_again s :
  pwp (json false) s (λ t _ _,
    exists_checks jp false t = true →
    bound_and_truthy (json_file_from_zip s) = false →
    1 ≤ downloads ju t).
Proof.
  acquire_go.
  all: intros Hc Hz; trace_eval_in Hc; split_andb; try done; try congruence; trace_eval; try lia.
Qed.

End Sections.


(** *** The whole call *)

Section Glue.
Context (root slug : string) (refresh : bool).

(** [acquire_owid_data] is the first block, then the second, then the
    pair of the two results; an exception in flight ends the call. *)
Lemma acquire_sections
    (Qc : trace ans → outcome unit → frame → Prop)
    (Qj : frame → trace ans → outcome unit → frame → Prop)
    (Q : trace ans → outcome (option string * option string) → Prop) :
  pwp (csv_section root refresh slug (csv_url slug) (csv_path root slug) (json_path root slug))
      fresh_frame Qc →
  (∀ s, pwp (json_section root refresh slug (json_url slug) (csv_path root slug)
               (json_path root slug)) s (Qj s)) →
  (∀ tc e sc, Qc tc (Raises e) sc → Q tc (Raises e)) →
  (∀ tc sc tj e sj,
     Qc tc (Returns tt) sc → Qj sc tj (Raises e) sj → Q (tc ++ tj) (Raises e)) →
  (∀ tc sc tj sj,
     Qc tc (Returns tt) sc → Qj sc tj (Returns tt) sj →
     Q (tc ++ tj) (Returns (json_file sj, csv_file sj))) →
  wp (acquire_owid_data root slug refresh) Q.
Proof.
  intros Hc Hj Q1 Q2 Q3.
  unfold acquire_owid_data. apply wp_bind.
  apply (wp_mono _ (λ t rs, Q t rs.1));
    [intros t [r s]; simpl; by rewrite app_nil_r |].
  change (pwp (acquire_body root slug refresh) fresh_frame (λ t r _, Q t r)).
  unfold acquire_body.
  apply pwp_seq. rewrite slug_json. apply pwp_lift. cbv beta iota zeta.
  apply pwp_seq. rewrite slug_csv. apply pwp_lift. cbv beta iota zeta.
  apply pwp_seq. eapply pwp_mono; [| exact Hc].
  intros tc [[] | e] sc Hqc; cbn [app]; rewrite ?app_nil_r; [| by eapply Q1].
  apply pwp_seq. eapply pwp_mono; [| apply Hj].
  intros tj [[] | e] sj Hqj; cbn [app]; rewrite ?app_nil_r; [| by eapply Q2].
  apply pwp_seq, pwp_read. cbv beta iota.
  apply pwp_seq, pwp_read. cbv beta iota.
  apply pwp_ret. rewrite ?app_nil_r. by eapply Q3.
Qed.

(** In every call the archive is downloaded at most once. *)
Lemma zip_once :
  wp (acquire_owid_data root slug refresh) (λ t _, downloads (zip_url slug) t ≤ 1).
Proof.
  eapply acquire_sections;
    [ apply csv_zip_budget | intros s; apply json_zip_budget | .. ];
    cbv beta.
  - intros tc e sc [H _]. exact H.
  - intros tc sc tj e sj [Hc1 Hc2] [Hj1 Hj2]. rewrite downloads_app.
    destruct (decide (slug ∈ attempted_zip sc)) as [Hin | Hout].
    + rewrite (Hj2 Hin). lia.
    + rewrite (Hc2 Hout). lia.
  - intros tc sc tj sj [Hc1 Hc2] [Hj1 Hj2]. rewrite downloads_app.
    destruct (decide (slug ∈ attempted_zip sc)) as [Hin | Hout].
    + rewrite (Hj2 Hin). lia.
    + rewrite (Hc2 Hout). lia.
Qed.

Lemma never_raises_wp :
  wp (acquire_owid_data root slug refresh) (λ t r,
    tolerated t = true →
    ∃ j c, r = Returns (j, c) ∧
      (download_failed (csv_url slug) t = true → c ≠ None →
       extracted data root slug t = true) ∧
      (download_failed (json_url slug) t = true → j ≠ None →
       extracted metadata root slug t = true)).
Proof.
  eapply acquire_sections;
    [ apply pwp_conj; [apply csv_tolerated | apply pwp_conj; [apply csv_failed | apply csv_no_json]]
    | intros s; apply pwp_conj; [apply json_tolerated | apply pwp_conj; [apply json_failed | apply json_no_csv]]
    | .. ];
    cbv beta; unfold extracted, member_of, path_of, csv_path, json_path.
  - intros tc e sc (Ht & _) Htol. by specialize (Ht Htol).
  - intros tc sc tj e sj _ (Ht & _) Htol.
    rewrite tolerated_app in Htol. apply andb_true_iff in Htol as [_ Htol].
    by specialize (Ht Htol).
  - intros tc sc tj sj (_ & Hfc & Hnj) (_ & Hfj & Hnc & Hk) _.
    eexists _, _. split; [reflexivity |].
    unfold download_failed in *. rewrite !existsb_app.
    rewrite (downloads_zero_raised _ _ _ Hnj), (downloads_zero_raised _ _ _ Hnc).
    rewrite orb_false_r, orb_false_l. split.
    + intros Hf Hne. rewrite Hk in Hne.
      destruct (Hfc Hf) as [? | ->]; done.
    + intros Hf Hne. destruct (Hfj Hf) as [? | ->]; [done | apply orb_true_r].
Qed.

Lemma gives_up_wp :
  wp (acquire_owid_data root slug refresh) (λ t r,
    (existsb (download_raised (csv_url slug) _is_non_redistributable) t = true →
     (∀ j c, r = Returns (j, c) → c = None) ∧
     fallback_follows (csv_url slug) (zip_url slug) t = false) ∧
    (existsb (download_raised (json_url slug) _is_non_redistributable) t = true →
     (∀ j c, r = Returns (j, c) → j = None) ∧
     fallback_follows (json_url slug) (zip_url slug) t = false)).
Proof.
  eapply acquire_sections;
    [ apply pwp_conj; [apply csv_non_redistributable | apply csv_no_json]
    | intros s; apply pwp_conj;
        [apply json_non_redistributable | apply pwp_conj; [apply json_no_csv | apply json_head]]
    | .. ];
    cbv beta; unfold csv_path, json_path.
  - intros tc e sc ((Hr & Hff) & Hnj). split; intros Hx.
    + by split.
    + by rewrite (downloads_zero_raised _ _ _ Hnj) in Hx.
  - intros tc sc tj e sj ((Hrc & Hffc) & Hnj) ((Hrj & Hffj) & (Hnc & Hk) & (x & t' & ->)).
    rewrite !follows_app by (by intros ev t'' [= <- <-]).
    rewrite Hffc, Hffj, (downloads_zero_follows _ _ _ Hnj), (downloads_zero_follows _ _ _ Hnc).
    by split; intros _.
  - intros tc sc tj sj ((Hrc & Hffc) & Hnj) ((Hrj & Hffj) & (Hnc & Hk) & (x & t' & ->)).
    rewrite !follows_app by (by intros ev t'' [= <- <-]).
    rewrite Hffc, Hffj, (downloads_zero_follows _ _ _ Hnj), (downloads_zero_follows _ _ _ Hnc).
    rewrite !existsb_app.
    rewrite (downloads_zero_raised _ _ _ Hnj), (downloads_zero_raised _ _ _ Hnc).
    rewrite orb_false_r, orb_false_l.
    split; intros Hx; (split; [| done]); intros j c [= <- <-].
    + rewrite Hk. by apply Hrc.
    + by apply Hrj.
Qed.
End Glue.

Section GlueNoRefresh.
Context (root slug : string).

Lemma cached_wp :
  wp (acquire_owid_data root slug false) (λ t r,
    (exists_checks (csv_path root slug) true t = true →
     downloads (csv_url slug) t = 0 ∧
     ∀ j c, r = Returns (j, c) → c = Some (csv_path root slug)) ∧
    (exists_checks (json_path root slug) true t = true →
     downloads (json_url slug) t = 0 ∧
     ∀ j c, r = Returns (j, c) → j = Some (json_path root slug))).
Proof.
  eapply acquire_sections;
    [ apply pwp_conj; [apply csv_cached | apply csv_no_json]
    | intros s; apply pwp_conj; [apply json_cached | apply json_no_csv]
    | .. ];
    cbv beta; unfold csv_path, json_path.
  - intros tc e sc (Hc & Hnj). split; intros Hx.
    + destruct (Hc Hx) as [-> _]. by split.
    + by split.
  - intros tc sc tj e sj (Hc & Hnj) (Hj & Hnc & Hk).
    rewrite !exists_checks_app, !downloads_app, Hnj, Hnc.
    split; intros [H1 H2]%andb_true_iff.
    + destruct (Hc H1) as [-> _]. by split.
    + destruct (Hj H2) as [-> _]. by split.
  - intros tc sc tj sj (Hc & Hnj) (Hj & Hnc & Hk).
    rewrite !exists_checks_app, !downloads_app, Hnj, Hnc.
    split; intros [H1 H2]%andb_true_iff.
    + destruct (Hc H1) as [-> Hf]. split; [done |].
      intros j c [= <- <-]. by rewrite Hk.
    + destruct (Hj H2) as [-> Hf]. split; [done |].
      by intros j c [= <- <-].
Qed.

Lemma again_wp :
  wp (acquire_owid_data root slug false) (λ t r,
    (exists_checks (csv_path root slug) false t = true →
     1 ≤ downloads (csv_url slug) t) ∧
    (exists_checks (json_path root slug) false t = true →
     extracted metadata root slug t = false →
     (∃ pair, r = Returns pair) →
     1 ≤ downloads (json_url slug) t)).
Proof.
  eapply acquire_sections;
    [ apply pwp_conj; [apply csv_again | apply csv_from_zip]
    | intros s; apply json_again
    | .. ];
    cbv beta; unfold extracted, member_of, path_of, csv_path, json_path.
  - intros tc e sc (Hc & _). split; [done |].
    by intros _ _ (pair & ?).
  - intros tc sc tj e sj (Hc & Hz) Hj.
    rewrite !exists_checks_app, !downloads_app. split.
    + intros [H1 _]%andb_true_iff. specialize (Hc H1). lia.
    + by intros _ _ (pair & ?).
  - intros tc sc tj sj (Hc & Hz) Hj.
    rewrite !exists_checks_app, !downloads_app, existsb_app. split.
    + intros [H1 _]%andb_true_iff. specialize (Hc H1). lia.
    + intros [_ H2]%andb_true_iff [Hx _]%orb_false_iff _.
      assert (bound_and_truthy (json_file_from_zip sc) = false) as Hb.
      { destruct (bound_and_truthy (json_file_from_zip sc)); [| done].
        rewrite Hz in Hx; done. }
      specialize (Hj H2 Hb). lia.
Qed.
End GlueNoRefresh.

(** *** The archive is deleted *)

Lemma cleanup_wp root refresh slug cp jp s :
  pwp (_download_from_zip root refresh slug cp jp) s (λ t _ _, cleanup_post t).
Proof.
  pwp_go ltac:(fun _ => unfold_zip).
  all: intros zp Hz; rewrite ?app_nil_r in *; cbn [app existsb] in Hz;
    unfold opens_archive in Hz; cbn [ev_op orb] in Hz; try done;
    rewrite ?orb_false_r in Hz; apply String.eqb_eq in Hz; subst zp.
  all: eexists; (split; [reflexivity |]);
    unfold reports_gone, deletion_raised; cbn [ev_op ev_reply failure_of];
    rewrite ?String.eqb_refl; cbn [andb]; first [by left | by right].
Qed.

(** A failure of the deletion step that derives from [Exception] does not
    surface: when no existence check fails and every failure derives from
    [Exception], the fallback step returns. *)
Lemma fallback_returns root refresh slug cp jp s :
  pwp (_download_from_zip root refresh slug cp jp) s (λ t r _,
    tolerated t = true → ∃ pair, r = Returns pair).
Proof.
  pwp_go ltac:(fun _ => unfold_zip).
  all: intros Ht; try (by eexists); exfalso.
  all: trace_eval_in Ht; split_andb; congruence.
Qed.

Section FileSystem.
(** Any environment, with a reading of which files its states hold, of
    which two things are assumed: a path whose existence check answers
    [False] is not there afterwards, and neither is a path whose unlink
    returns. *)
Context {W : Type} (env : environment ans W) (file_exists : W → string → bool).
Hypothesis exists_false : ∀ p w w',
  env (Path_exists p) w = (Done false, w') → file_exists w' p = false.
Hypothesis unlink_done : ∀ p w u w',
  env (Path_unlink p) w = (Done u, w') → file_exists w' p = false.

Lemma reports_gone_sound zp ev w1 w' :
  reports_gone zp ev = true → env (ev_op ev) w1 = (ev_reply ev, w') →
  file_exists w' zp = false.
Proof using exists_false unlink_done.
  destruct ev as [o x]. unfold reports_gone. simpl.
  destruct o; try done; intros [Hq Hx]%andb_true_iff;
    apply String.eqb_eq in Hq; subst.
  - destruct x as [[] |]; try done. apply exists_false.
  - destruct x as [u |]; try done. apply unlink_done.
Qed.

(** C8. Whenever [_download_from_zip] has got the archive and entered the
    extraction phase on it (it opened the archive at [zip_file_path]),
    then, however the extraction went, once the fallback step is over the
    archive file is not there any more, unless the deletion step itself
    (the existence check or the unlink in the [finally] clause) raised;
    and a failure of the unlink that derives from [Exception] is
    swallowed: with no other kind of failure the step returns. *)
Theorem archive_deleted_after_extraction
    (root : string) (refresh : bool) (slug csv_path json_path : string)
    (s : frame) (w : W) (zip_file_path : string) :
  let x := run env (_download_from_zip root refresh slug csv_path json_path s) w in
  existsb (opens_archive zip_file_path) (calls x) = true →
  (file_exists (world x) zip_file_path = false ∨
   existsb (deletion_raised zip_file_path) (calls x) = true) ∧
  (tolerated (calls x) = true → ∃ pair, (result x).1 = Returns pair).
Proof using exists_false unlink_done.
  intros x Hopen. split.
  - pose proof (wp_run env _ w _ (cleanup_wp root refresh slug csv_path json_path s)) as Hc.
    cbv beta in Hc. destruct (Hc _ Hopen) as (ev & Hlast & [Hgone | Hraised]).
    + left.
      destruct (answered_last env w _ _ ev (run_answered env _ w) Hlast) as (w1 & Hev).
      by eapply reports_gone_sound.
    + right. by eapply last_existsb.
  - exact (wp_run env _ w _ (fallback_returns root refresh slug csv_path json_path s)).
Qed.
End FileSystem.

(** The simulated disk meets the two assumptions. *)
Lemma on_disk_filter p files :
  on_disk p (List.filter (λ q, negb (String.eqb p q)) files) = false.
Proof.
  induction files as [| q files IH]; [done |]. simpl.
  destruct (String.eqb p q) eqn:E; simpl; [done |]. by rewrite E.
Qed.

Lemma sim_exists_false srv p w w' :
  sim srv (Path_exists p) w = (Done false, w') → on_disk p w' = false.
Proof. simpl. by intros [= ? <-]. Qed.

Lemma sim_unlink_done srv p w u w' :
  sim srv (Path_unlink p) w = (Done u, w') → on_disk p w' = false.
Proof.
  simpl. destruct (unlink_error srv); [done |].
  destruct (on_disk p w); [| done]. intros H. inversion H; subst. apply on_disk_filter.
Qed.

Lemma archive_deleted_after_extraction_witness :
  let x := run (sim forbidden_site)
             (_download_from_zip "/d/owid" false "restricted-x"
                "/d/owid/restricted-x.csv" "/d/owid/restricted-x.metadata.json"
                fresh_frame) [] in
  existsb (opens_archive "/d/owid/restricted-x.zip") (calls x) = true ∧
  tolerated (calls x) = true ∧
  (on_disk "/d/owid/restricted-x.zip" (world x) = false ∨
   existsb (deletion_raised "/d/owid/restricted-x.zip") (calls x) = true) ∧
  ∃ pair, (result x).1 = Returns pair.
Proof.
  split; [vm_compute; reflexivity |]. split; [vm_compute; reflexivity |].
  destruct (archive_deleted_after_extraction (sim forbidden_site) (λ w p, on_disk p w)
              (sim_exists_false forbidden_site) (sim_unlink_done forbidden_site)
              "/d/owid" false "restricted-x"
              "/d/owid/restricted-x.csv" "/d/owid/restricted-x.metadata.json"
              fresh_frame [] "/d/owid/restricted-x.zip") as [Hgone Hret];
    [vm_compute; reflexivity |].
  split; [exact Hgone | apply Hret; vm_compute; reflexivity].
Defined.

(** When the unlink fails the archive stays on disk, and the step returns
    all the same, with both artifacts extracted. *)
Lemma archive_kept_when_unlink_fails :
  let srv := Site (refuses forbidden_site) (members forbidden_site)
               (Some (Failure true "[Errno 13] Permission denied")) in
  let x := run (sim srv)
             (_download_from_zip "/d/owid" false "restricted-x"
                "/d/owid/restricted-x.csv" "/d/owid/restricted-x.metadata.json"
                fresh_frame) [] in
  on_disk "/d/owid/restricted-x.zip" (world x) = true
  ∧ existsb (deletion_raised "/d/owid/restricted-x.zip") (calls x) = true
  ∧ (result x).1 = Returns (Some "/d/owid/restricted-x.csv",
                           Some "/d/owid/restricted-x.metadata.json").
Proof. repeat split; vm_compute; reflexivity. Qed.

(** *** The claims about [acquire_owid_data] *)

Section Claims.
Context {W : Type} (env : environment ans W) (w : W) (root slug : string).

(** C1 (as amended). When no existence check fails and every failure of a
    call derives from [Exception] (so in particular whenever the only
    failures are failed downloads and failed archive operations of that
    kind), [acquire_owid_data] returns a pair and does not raise; and when
    the direct download of an artifact failed, the component of that
    artifact is absent unless the archive fallback extracted the artifact. *)
Theorem acquire_never_raises (refresh : bool) :
  let x := run env (acquire_owid_data root slug refresh) w in
  tolerated (calls x) = true →
  ∃ pair, result x = Returns pair ∧
    ∀ a, download_failed (url_of a slug) (calls x) = true →
         component a pair ≠ None →
         extracted a root slug (calls x) = true.
Proof.
  intros x Ht.
  destruct (wp_run env _ w _ (never_raises_wp root slug refresh) Ht)
    as (j & c & Hr & Hc & Hj).
  exists (j, c). split; [exact Hr |]. intros []; simpl; auto.
Qed.

(** C2. If in one call the direct download of the metadata and the direct
    download of the data both raise an access-forbidden error, the archive
    is downloaded at most once in that call. *)
Theorem archive_downloaded_at_most_once (refresh : bool) :
  let x := run env (acquire_owid_data root slug refresh) w in
  existsb (download_raised (json_url slug) _is_forbidden_error) (calls x) = true →
  existsb (download_raised (csv_url slug) _is_forbidden_error) (calls x) = true →
  downloads (zip_url slug) (calls x) ≤ 1.
Proof.
  intros x _ _. exact (wp_run env _ w _ (zip_once root slug refresh)).
Qed.

(** C5. If in one call the direct download of an artifact raises an error
    whose lowercased message contains [non-redistributable] or
    [not allowed to re-share], then the component of that artifact in the
    returned pair is absent, and the failed download is not followed by a
    download of the archive: the fallback is not entered for it.  The call
    does return a pair when no existence check fails and every failure
    derives from [Exception]. *)
Theorem non_redistributable_gives_up (refresh : bool) (a : artifact) :
  let x := run env (acquire_owid_data root slug refresh) w in
  existsb (download_raised (url_of a slug) _is_non_redistributable) (calls x) = true →
  (∀ pair, result x = Returns pair → component a pair = None) ∧
  fallback_follows (url_of a slug) (zip_url slug) (calls x) = false ∧
  (tolerated (calls x) = true → ∃ pair, result x = Returns pair).
Proof.
  intros x Hn.
  destruct (wp_run env _ w _ (gives_up_wp root slug refresh)) as [Hc Hj].
  assert (tolerated (calls x) = true → ∃ pair, result x = Returns pair) as Hret.
  { intros Ht.
    destruct (wp_run env _ w _ (never_raises_wp root slug refresh) Ht)
      as (j & c & Hr & _). by exists (j, c). }
  destruct a; simpl in *.
  - destruct (Hj Hn) as [Hr Hf]. split; [| by split]. intros [j c]. apply Hr.
  - destruct (Hc Hn) as [Hr Hf]. split; [| by split]. intros [j c]. apply Hr.
Qed.

(** C6. For each artifact: if its cache path exists (every existence check
    of that path made during the call answers [True]) and [refresh] is
    false, the download capability is not invoked on the address of the
    artifact, and its component in the returned pair is the cache path.
    The call does return a pair when no existence check fails and every
    failure derives from [Exception]. *)
Theorem cached_artifact_not_downloaded (a : artifact) :
  let x := run env (acquire_owid_data root slug false) w in
  exists_checks (path_of a root slug) true (calls x) = true →
  downloads (url_of a slug) (calls x) = 0 ∧
  (∀ pair, result x = Returns pair → component a pair = Some (path_of a root slug)) ∧
  (tolerated (calls x) = true → ∃ pair, result x = Returns pair).
Proof.
  intros x He.
  destruct (wp_run env _ w _ (cached_wp root slug)) as [Hc Hj].
  assert (tolerated (calls x) = true → ∃ pair, result x = Returns pair) as Hret.
  { intros Ht.
    destruct (wp_run env _ w _ (never_raises_wp root slug false) Ht)
      as (j & c & Hr & _). by exists (j, c). }
  destruct a; simpl in *.
  - destruct (Hj He) as [Hd Hr]. split; [exact Hd |]. split; [| done]. intros [j c]. apply Hr.
  - destruct (Hc He) as [Hd Hr]. split; [exact Hd |]. split; [| done]. intros [j c]. apply Hr.
Qed.

(** C9 (as amended). Nothing is remembered from one call to the next: if
    in one call the direct download of an artifact was classified
    non-redistributable, a second call with the same slug and [refresh]
    false, started where the first one ended, invokes the download
    capability on that artifact again, provided that call returns, finds
    no file at the cache path of the artifact and did not get the artifact
    out of the archive. *)
Theorem second_call_attempts_again (a : artifact) :
  let x1 := run env (acquire_owid_data root slug false) w in
  let x2 := run env (acquire_owid_data root slug false) (world x1) in
  existsb (download_raised (url_of a slug) _is_non_redistributable) (calls x1) = true →
  exists_checks (path_of a root slug) false (calls x2) = true →
  extracted a root slug (calls x2) = false →
  (∃ pair, result x2 = Returns pair) →
  1 ≤ downloads (url_of a slug) (calls x2).
Proof.
  intros x1 x2 _ He Hx Hr.
  destruct (wp_run env _ (world x1) _ (again_wp root slug)) as [Hc Hj].
  destruct a; simpl in *; auto.
Qed.
End Claims.

(** *** Concrete runs *)

(** C1 as stated fails: with the direct downloads answered 403 and the
    archive served, the download of the data artifact fails, nothing but
    downloads fails, and yet the data component of the returned pair is
    present (the archive fallback supplied it). *)
Lemma acquire_failed_download_still_present :
  let x := run (sim forbidden_site) (acquire_owid_data "/d/owid" "restricted-x" false) [] in
  tolerated (calls x) = true
  ∧ download_failed (csv_url "restricted-x") (calls x) = true
  ∧ result x = Returns (Some "/d/owid/restricted-x.metadata.json",
                        Some "/d/owid/restricted-x.csv").
Proof. repeat split; vm_compute; reflexivity. Qed.

Lemma acquire_never_raises_witness :
  let x := run (sim closed_site) (acquire_owid_data "/d/owid" "restricted-x" false) [] in
  tolerated (calls x) = true
  ∧ ∃ pair, result x = Returns pair ∧
      ∀ a, download_failed (url_of a "restricted-x") (calls x) = true →
           component a pair ≠ None →
           extracted a "/d/owid" "restricted-x" (calls x) = true.
Proof.
  split; [vm_compute; reflexivity |].
  apply (acquire_never_raises (sim closed_site) [] "/d/owid" "restricted-x" false).
  vm_compute; reflexivity.
Defined.

Lemma archive_downloaded_at_most_once_witness :
  let x := run (sim closed_site) (acquire_owid_data "/d/owid" "restricted-x" false) [] in
  existsb (download_raised (json_url "restricted-x") _is_forbidden_error) (calls x) = true
  ∧ existsb (download_raised (csv_url "restricted-x") _is_forbidden_error) (calls x) = true
  ∧ downloads (zip_url "restricted-x") (calls x) ≤ 1.
Proof.
  split; [vm_compute; reflexivity |]. split; [vm_compute; reflexivity |].
  apply (archive_downloaded_at_most_once (sim closed_site) [] "/d/owid" "restricted-x" false);
    vm_compute; reflexivity.
Defined.

Lemma non_redistributable_gives_up_witness :
  let x := run (sim policy_site) (acquire_owid_data "/d/owid" "blocked-y" false) [] in
  existsb (download_raised (url_of metadata "blocked-y") _is_non_redistributable) (calls x) = true
  ∧ tolerated (calls x) = true
  ∧ (∀ pair, result x = Returns pair → component metadata pair = None)
  ∧ fallback_follows (url_of metadata "blocked-y") (zip_url "blocked-y") (calls x) = false
  ∧ ∃ pair, result x = Returns pair.
Proof.
  split; [vm_compute; reflexivity |]. split; [vm_compute; reflexivity |].
  destruct (non_redistributable_gives_up (sim policy_site) [] "/d/owid" "blocked-y"
              false metadata) as (Hnone & Hzip & Hret); [vm_compute; reflexivity |].
  split; [exact Hnone |]. split; [exact Hzip |]. apply Hret; vm_compute; reflexivity.
Defined.

Lemma cached_artifact_not_downloaded_witness :
  let x := run (sim open_site) (acquire_owid_data "/d/owid" "life-expectancy" false)
             ["/d/owid/life-expectancy.csv"] in
  exists_checks (path_of data "/d/owid" "life-expectancy") true (calls x) = true
  ∧ tolerated (calls x) = true
  ∧ downloads (url_of data "life-expectancy") (calls x) = 0
  ∧ (∀ pair, result x = Returns pair →
             component data pair = Some (path_of data "/d/owid" "life-expectancy"))
  ∧ ∃ pair, result x = Returns pair.
Proof.
  split; [vm_compute; reflexivity |]. split; [vm_compute; reflexivity |].
  destruct (cached_artifact_not_downloaded (sim open_site) ["/d/owid/life-expectancy.csv"]
              "/d/owid" "life-expectancy" data) as (Hzero & Hpath & Hret);
    [vm_compute; reflexivity |].
  split; [exact Hzero |]. split; [exact Hpath |]. apply Hret; vm_compute; reflexivity.
Defined.

(** C9 as stated fails: with every download refused as non-redistributable,
    the first call classifies the data download so and leaves the disk as
    it was, and the second call, with the same slug and [refresh] false,
    downloads the data address again. *)
Lemma second_call_downloads_again :
  let x1 := run (sim policy_site) (acquire_owid_data "/d/owid" "blocked-y" false) [] in
  let x2 := run (sim policy_site) (acquire_owid_data "/d/owid" "blocked-y" false) (world x1) in
  existsb (download_raised (csv_url "blocked-y") _is_non_redistributable) (calls x1) = true
  ∧ world x1 = []
  ∧ downloads (csv_url "blocked-y") (calls x2) = 1.
Proof. repeat split; vm_compute; reflexivity. Qed.

Lemma second_call_attempts_again_witness :
  let x1 := run (sim policy_site) (acquire_owid_data "/d/owid" "blocked-y" false) [] in
  let x2 := run (sim policy_site) (acquire_owid_data "/d/owid" "blocked-y" false) (world x1) in
  existsb (download_raised (url_of data "blocked-y") _is_non_redistributable) (calls x1) = true
  ∧ exists_checks (path_of data "/d/owid" "blocked-y") false (calls x2) = true
  ∧ extracted data "/d/owid" "blocked-y" (calls x2) = false
  ∧ (∃ pair, result x2 = Returns pair)
  ∧ 1 ≤ downloads (url_of data "blocked-y") (calls x2).
Proof.
  split; [vm_compute; reflexivity |]. split; [vm_compute; reflexivity |].
  split; [vm_compute; reflexivity |].
  split; [eexists; vm_compute; reflexivity |].
  apply (second_call_attempts_again (sim policy_site) [] "/d/owid" "blocked-y" data);
    [vm_compute; reflexivity .. | eexists; vm_compute; reflexivity].
Defined.

End owid_facts.

(** ** More of the resolver: the registry of the module *)

Module base_more.
Import base base_facts base_listing.

Lemma string_drop_app (pre s : string) : string_drop (String.length pre) (pre +:+ s) = s.
Proof. induction pre as [| c pre IH]; [done |]. by rewrite (append_cons c pre). Qed.

Lemma startswith_app_true (pre s : string) : startswith (pre +:+ s) pre = true.
Proof. apply prefix_app. Qed.

Lemma separator_cases (key : string) :
  startswith key "/" || startswith key "\" = true →
  ∃ c rest, key = String c rest ∧ is_newline c = false ∧ is_word_char c = false
            ∧ (c = "/"%char ∨ c = "\"%char).
Proof.
  destruct key as [| c rest]; [done |]. unfold startswith. cbn [String.prefix].
  destruct (ascii_dec "/" c) as [<- |]; [intros _; exists "/"%char, rest; by auto |].
  destruct (ascii_dec "\" c) as [<- |]; [intros _; exists "\"%char, rest; by auto |].
  done.
Qed.

Section Dispatch.
Context {Content : Type}.
Implicit Types (protocols : gmap string (handler Content)).

(** Dispatch on a key that starts with a scheme: the registry decides. *)
Lemma grab_scheme protocols (s : string) (c : ascii) (rest : string) :
  scheme_shaped s = true → is_newline c = false →
  grab protocols (s +:+ "://" +:+ String c rest)
  = match protocols !! s with
    | Some h => h (s +:+ "://" +:+ String c rest)
    | None => Ret (Raises (KeyError ("Unrecognized protocol: " +:+ s)))
    end.
Proof.
  intros Hs Hc. unfold grab.
  rewrite scheme_not_separator by done.
  rewrite contains_mid.
  by destruct (protocol_sep_p_scheme s rest c Hs Hc) as [ref ->].
Qed.

(** X1. On a key that starts with a separator, [grab] never reaches
    [get_obj]: the handler registered for [file] runs on [file://] followed
    by the key, and with no such handler the call raises [KeyError]. *)
Theorem grab_separator_dispatch protocols (key : string) :
  startswith key "/" || startswith key "\" = true →
  grab protocols key
  = match protocols !! "file" with
    | Some h => h ("file://" +:+ key)
    | None => Ret (Raises (KeyError "Unrecognized protocol: file"))
    end.
Proof.
  intros Hsep. destruct (separator_cases key Hsep) as (c & rest & -> & Hc & _).
  unfold grab at 1. rewrite Hsep.
  change ("file://" +:+ String c rest) with ("file" +:+ "://" +:+ String c rest).
  rewrite contains_mid.
  by destruct (protocol_sep_p_scheme "file" rest c eq_refl Hc) as [ref ->].
Qed.

(** X2. The [file://] prefix is optional for the local-file handler, and it
    is removed once: on [file://p] the handler does what it does on [p],
    for every [p] that does not itself start with [file://]. *)
Theorem file_prefix_optional (p : string) :
  startswith p "file://" = false →
  get_local_file_bytes_or_folder_mapping (Content := Content) ("file://" +:+ p)
  = get_local_file_bytes_or_folder_mapping p.
Proof.
  intros Hp. unfold get_local_file_bytes_or_folder_mapping.
  by rewrite startswith_app_true, string_drop_app, Hp.
Qed.

(** The registry of the module, entry by entry. *)
Lemma protocols_file hf gf :
  protocols (Content := Content) hf gf !! "file"
  = Some get_local_file_bytes_or_folder_mapping.
Proof. by destruct hf, gf. Qed.




Lemma protocols_lookup hf gf (s : string) (h : handler Content) :
  protocols hf gf !! s = Some h ↔
  (s = "file" ∧ h = get_local_file_bytes_or_folder_mapping)
  ∨ (hf = true ∧ s = "kaggle" ∧ h = get_kaggle_data)
  ∨ (gf = true ∧ (s = "http" ∨ s = "https") ∧ h = graze_getitem).
Proof.
  unfold protocols. destruct hf, gf; cbv zeta;
    rewrite ?lookup_insert_Some, lookup_empty;
    intuition (subst; try done; auto 6).
Qed.

Lemma prototols_lookup hf gf (s : string) :
  s ∈ prototols hf gf ↔ is_Some (protocols (Content := Content) hf gf !! s).
Proof.
  unfold is_Some. setoid_rewrite protocols_lookup.
  unfold prototols. destruct hf, gf; cbn [app];
    rewrite ?elem_of_cons, ?elem_of_nil; split.
  all: try (intros (h & H); intuition (subst; try done; auto 6)).
  all: intros H; intuition (subst; try done; eauto 7).
Qed.

Lemma grab_local_lookup hf gf (key : string) :
  startswith key "/" || startswith key "\" = true →
  grab (protocols (Content := Content) hf gf) key
  = Vis (os_path_isdir key) (λ d,
      match d with
      | Failed f => Ret (Raises (Propagated f))
      | Done true => passthrough (Files key)
      | Done false => passthrough (open_rb_read key)
      end).
Proof.
  intros Hsep. destruct (separator_cases key Hsep) as (c & rest & -> & Hc & _).
  transitivity (grab (protocols (Content := Content) hf gf)
                  ("file" +:+ "://" +:+ String c rest)).
  { unfold grab at 1. by rewrite Hsep. }
  rewrite grab_scheme by done. rewrite protocols_file.
  unfold get_local_file_bytes_or_folder_mapping.
  change ("file" +:+ "://" +:+ String c rest) with ("file://" +:+ String c rest).
  by rewrite startswith_app_true, string_drop_app.
Qed.

(** X3. With the registry of the module, [grab] on a key that starts with a
    separator is the local-file handler on that key: the prefix [grab]
    adds is the one the handler removes, so the path that reaches
    [os.path.isdir], [Files] and [open] is the key as it was given, and
    [KeyError] is never raised. *)
Theorem grab_local_path hf gf (key : string) :
  startswith key "/" || startswith key "\" = true →
  grab (protocols (Content := Content) hf gf) key
  = Vis (os_path_isdir key) (λ d,
      match d with
      | Failed f => Ret (Raises (Propagated f))
      | Done true => passthrough (Files key)
      | Done false => passthrough (open_rb_read key)
      end).
Proof. apply grab_local_lookup. Qed.




(** X7. With the registry of the module, [grab] finishes without calling a
    collaborator in one case only: the key starts with a scheme that is
    not in [grab.prototols], and the exception is the [KeyError] naming
    that scheme. *)
Theorem grab_without_call hf gf (key : string) (r : outcome Content) :
  grab (protocols hf gf) key = Ret r →
  ∃ z ref tail, key = z +:+ "://" +:+ ref +:+ tail
    ∧ scheme_shaped z = true ∧ ref ≠ "" ∧ (z ∉ prototols hf gf)
    ∧ r = Raises (KeyError ("Unrecognized protocol: " +:+ z)).
Proof.
  destruct (startswith key "/" || startswith key "\") eqn:Hsep.
  { by rewrite grab_local_lookup. }
  unfold grab. rewrite Hsep.
  destruct (contains "://" key); [| done].
  destruct (protocol_sep_p key) as [[z ref] |] eqn:Hm; [| done].
  destruct (protocol_sep_p_sound _ _ _ Hm) as (tail & Hk & Hz & Href & _).
  destruct (protocols hf gf !! z) as [h |] eqn:Hh.
  - apply protocols_lookup in Hh as [[_ ->] | [(_ & _ & ->) | (_ & _ & ->)]]; done.
  - intros [= <-]. exists z, ref, tail. repeat (split; [done |]). split; [| done].
    intros Hin. apply prototols_lookup in Hin.
    rewrite Hh in Hin. by destruct Hin.
Qed.

End Dispatch.

Lemma grab_separator_dispatch_witness :
  startswith "/data" "/" || startswith "/data" "\" = true
  ∧ grab (protocols (Content := string) true true) "/data"
    = match protocols (Content := string) true true !! "file" with
      | Some h => h ("file://" +:+ "/data")
      | None => Ret (Raises (KeyError "Unrecognized protocol: file"))
      end.
Proof.
  split; [reflexivity |].
  apply (grab_separator_dispatch (protocols true true) "/data"); reflexivity.
Defined.

Lemma file_prefix_optional_witness :
  startswith "/tmp/x" "file://" = false
  ∧ get_local_file_bytes_or_folder_mapping (Content := string) ("file://" +:+ "/tmp/x")
    = get_local_file_bytes_or_folder_mapping "/tmp/x".
Proof.
  split; [reflexivity |].
  apply (file_prefix_optional (Content := string) "/tmp/x"); reflexivity.
Defined.

Lemma grab_local_path_witness :
  startswith "\share\x" "/" || startswith "\share\x" "\" = true
  ∧ grab (protocols (Content := string) false false) "\share\x"
    = Vis (os_path_isdir "\share\x") (λ d,
        match d with
        | Failed f => Ret (Raises (Propagated f))
        | Done true => passthrough (Files "\share\x")
        | Done false => passthrough (open_rb_read "\share\x")
        end).
Proof.
  split; [reflexivity |].
  apply (grab_local_path (Content := string) false false "\share\x"); reflexivity.
Defined.



Lemma grab_without_call_witness :
  grab (protocols (Content := string) true true) "s3://bucket/k"
  = Ret (Raises (KeyError "Unrecognized protocol: s3"))
  ∧ ∃ z ref tail, "s3://bucket/k" = z +:+ "://" +:+ ref +:+ tail
      ∧ scheme_shaped z = true ∧ ref ≠ "" ∧ (z ∉ prototols true true)
      ∧ Raises (A := string) (KeyError "Unrecognized protocol: s3")
        = Raises (KeyError ("Unrecognized protocol: " +:+ z)).
Proof.
  split; [reflexivity |].
  apply (grab_without_call (Content := string) true true "s3://bucket/k"); reflexivity.
Defined.

End base_more.

(** ** [url_2_bytes] *)

Module fetch_facts.
Import fetch.

Lemma chunks_of_app t1 t2 : chunks_of (t1 ++ t2) = chunks_of t1 ++ chunks_of t2.
Proof. apply omap_app. Qed.

Lemma wp_invoke {A} (o : op) (k : ans o → loop A) (Q : trace ans → option (outcome A) → Prop) :
  (∀ x, wp (k x) (λ t r, Q (Ev o (Done x) :: t) r)) →
  (∀ f, Q [Ev o (Failed f)] (Some (Raises f))) →
  wp (invoke o k) Q.
Proof. intros H1 H2 [x | f]; simpl; auto. Qed.

Lemma failures_app t1 t2 : failures (t1 ++ t2) = failures t1 ++ failures t2.
Proof. apply omap_app. Qed.

Lemma closes_app t1 t2 : closes (t1 ++ t2) = closes t1 + closes t2.
Proof. unfold closes. by rewrite List.filter_app, length_app. Qed.

Lemma read_loop_spec fuel chk_size yielded :
  wp (read_loop fuel chk_size yielded) (loop_post fuel chk_size yielded).
Proof.
  revert yielded. induction fuel as [| fuel IH]; intros yielded; [by repeat split |].
  cbn [read_loop]. apply wp_invoke.
  - intros chk. destruct chk as [| b chk]; cbn [length Nat.ltb Nat.leb].
    + simpl. split; [done |]. exists []. by rewrite app_nil_r.
    + eapply wp_mono; [| apply IH]. cbv beta.
      intros t r (Hops & Hr). split; [cbn; by rewrite Hops |].
      destruct r as [[l | f] |].
      * destruct Hr as (new & -> & Hc & Hn & Hf & Hlen).
        exists ((b :: chk) :: new). rewrite <- app_assoc. split; [done |].
        split; [by cbn; rewrite <- Hc |]. split; [by constructor |].
        split; [done |]. cbn. by rewrite Hlen.
      * done.
      * destruct Hr as (Hlen & Hn & Hf).
        split; [cbn; by rewrite <- Hlen |]. split; [by constructor | done].
  - intros f. by split.
Qed.

Lemma replicate_reads_closes (t : trace ans) n amt :
  map ev_op t = replicate n (response_read amt) →
  closes t = 0 ∧ existsb opened t = false.
Proof.
  revert n. induction t as [| [o' x] t IH]; intros n Hm; [done |].
  destruct n as [| n]; [done |]. injection Hm as -> Hm.
  destruct (IH n Hm) as [Hc Hop]. unfold closes in *. cbn [List.filter ev_op is_exit].
  split; [done |]. cbn [existsb]. by rewrite Hop.
Qed.

Lemma url_2_bytes_spec fuel url chk_size user_agent :
  wp (url_2_bytes fuel url chk_size user_agent) (call_post fuel url chk_size user_agent).
Proof.
  unfold url_2_bytes, content_gen. apply wp_bind.
  apply wp_invoke; [intros [] | by intros f].
  apply wp_invoke; [intros [] | by intros f].
  apply wp_invoke; [intros [] | by intros f].
  apply wp_bind. eapply wp_mono; [| apply (read_loop_spec fuel chk_size [])].
  cbv beta. intros t r (Hops & Hr).
  destruct (replicate_reads_closes t _ _ Hops) as [Hcl Hop].
  destruct r as [res |]; [| simpl; rewrite ?app_nil_r; by split].
  intros x. cbn [wp]. rewrite !app_nil_r. cbn [app].
  set (pre := [Ev (Request url) (Done tt); Ev (add_header "user-agent" user_agent) (Done tt);
               Ev urlopen (Done tt)] : trace ans).
  change (Ev (Request url) (Done tt) :: Ev (add_header "user-agent" user_agent) (Done tt)
          :: Ev urlopen (Done tt) :: t ++ [Ev response_exit x])
    with (pre ++ t ++ [Ev response_exit x]).
  split.
  { intros _. rewrite !closes_app, !existsb_app, Hcl. split; [done |].
    intros _. exists x. by rewrite !app_assoc, last_snoc. }
  rewrite !chunks_of_app, !failures_app, !map_app.
  destruct x as [[] | fx].
  - destruct res as [l | f].
    + destruct Hr as (new & -> & Hc & Hn & Hf & Hlen). exists new.
      rewrite Hops, Hlen, Hc, Hf. subst pre. cbn. rewrite ?app_nil_r. by repeat split.
    + rewrite Hr. by subst pre.
  - assert (last ((failures pre ++ failures t) ++ [fx]) = Some fx) as Hl
      by apply last_snoc.
    rewrite <- app_assoc in Hl. by destruct res.
Qed.

Lemma run_bind {W A B} (env : environment ans W) (p : prog ans A) (f : A → prog ans B) (w : W) :
  run env (bind p f) w
  = let '(a, w1, t1) := run env p w in
    let '(b, w2, t2) := run env (f a) w1 in
    (b, w2, t1 ++ t2).
Proof.
  revert w. induction p as [a | o k IH]; intros w; simpl.
  - by destruct (run env (f a) w) as [[b w2] t2].
  - destruct (env o w) as [x w1]. rewrite IH.
    destruct (run env (k x) w1) as [[a w2] t1].
    by destruct (run env (f a) w2) as [[b w3] t2].
Qed.

(** The loop against a response that serves [left]. *)
Lemma read_loop_serving fuel chk_size yielded left :
  length left + 2 ≤ fuel → chk_size ≠ 0%Z →
  ∃ new, result (run serving (read_loop fuel chk_size yielded) left)
         = Some (Returns (yielded ++ new))
       ∧ concat new = left.
Proof.
  intros Hfuel Hsize.
  destruct (Z.ltb_spec chk_size 0) as [Hneg | Hpos].
  - destruct fuel as [| [| fuel]]; [lia .. |].
    cbn [read_loop invoke run serving]. apply Z.ltb_lt in Hneg. rewrite Hneg.
    destruct left as [| b left].
    + exists []. by rewrite app_nil_r.
    + cbn [length Nat.ltb Nat.leb read_loop invoke run serving]. rewrite Hneg.
      exists [b :: left]. cbn. by rewrite app_nil_r.
  - assert (length left < fuel) as Hlt by lia. clear Hfuel.
    revert yielded left Hlt. induction fuel as [| fuel IH]; intros yielded left Hlt; [lia |].
    cbn [read_loop invoke run serving].
    assert ((chk_size <? 0)%Z = false) as -> by (apply Z.ltb_ge; lia).
    set (n := Z.to_nat chk_size). assert (1 ≤ n) as Hn by lia.
    destruct left as [| b left].
    + rewrite take_nil. exists []. by rewrite app_nil_r.
    + destruct n as [| n]; [lia |]. cbn [take drop length Nat.ltb Nat.leb].
      destruct (IH (yielded ++ [b :: take n left]) (drop n left)) as (new & Hres & Hcat).
      { rewrite length_drop. cbn in Hlt. lia. }
      exists ((b :: take n left) :: new). split.
      * unfold result in *. cbn [fst snd].
        destruct (run serving _ (drop n left)) as [[r w2] t]. cbn in *.
        by rewrite <- app_assoc in Hres.
      * cbn. by rewrite Hcat, take_drop.
Qed.

Section AnyResponse.
Context {W : Type} (env : environment ans W) (w : W).
Context (fuel : nat) (url : string) (chk_size : Z) (user_agent : string).

(** X8. When [url_2_bytes] returns, the calls it made are: the request
    for [url], the [user-agent] header, the opening, reads of [chk_size]
    that returned non-empty chunks, one read that returned the empty
    chunk, and the closing; what it returns is the chunks joined in the
    order they were read. *)
Theorem url_2_bytes_joins_chunks (b : bytes) :
  let x := run env (url_2_bytes fuel url chk_size user_agent) w in
  result x = Some (Returns b) →
  ∃ chunks,
    b = concat chunks ∧ Forall (λ c, c ≠ []) chunks
    ∧ chunks_of (calls x) = chunks ++ [[]]
    ∧ map ev_op (calls x)
      = [Request url; add_header "user-agent" user_agent; urlopen]
        ++ replicate (S (length chunks)) (response_read chk_size)
        ++ [response_exit].
Proof.
  intros x Hx.
  destruct (wp_run env _ w _ (url_2_bytes_spec fuel url chk_size user_agent)) as [_ H].
  fold x in H. rewrite Hx in H. destruct H as (chunks & ? & ? & ? & ? & ?).
  by exists chunks.
Qed.

(** X9. Once [urlopen] has returned a response, the response is closed
    exactly once, by the last call that is made, whether the reads came to
    their end or one of them raised; and nothing is closed when no
    response was opened. *)
Theorem response_closed_on_every_path :
  let x := run env (url_2_bytes fuel url chk_size user_agent) w in
  result x ≠ None →
  closes (calls x) = (if existsb opened (calls x) then 1 else 0) ∧
  (existsb opened (calls x) = true → ∃ r, last (calls x) = Some (Ev response_exit r)).
Proof.
  intros x Hx.
  destruct (wp_run env _ w _ (url_2_bytes_spec fuel url chk_size user_agent)) as [H _].
  by apply H.
Qed.

(** X10. [url_2_bytes] returns bytes only when no call raised; when some
    call raised it raises, and the exception is the last one that was
    raised (the exception of the closing, if the closing raised too). *)
Theorem url_2_bytes_raises_last_failure :
  let x := run env (url_2_bytes fuel url chk_size user_agent) w in
  result x ≠ None →
  match last (failures (calls x)) with
  | Some f => result x = Some (Raises f)
  | None => ∃ b, result x = Some (Returns b)
  end.
Proof.
  intros x Hx.
  destruct (wp_run env _ w _ (url_2_bytes_spec fuel url chk_size user_agent)) as [_ H].
  fold x in H. destruct (result x) as [[b | f] |]; [| | done].
  - destruct H as (chunks & _ & _ & _ & _ & ->). by exists b.
  - by rewrite H.
Qed.

(** The loop does not stop of its own: a run is still reading after
    [fuel] reads only if every one of them returned a non-empty chunk. *)
Lemma url_2_bytes_reads_until_empty :
  let x := run env (url_2_bytes fuel url chk_size user_agent) w in
  result x = None →
  length (chunks_of (calls x)) = fuel ∧ Forall (λ c, c ≠ []) (chunks_of (calls x))
  ∧ failures (calls x) = [].
Proof.
  intros x Hx.
  destruct (wp_run env _ w _ (url_2_bytes_spec fuel url chk_size user_agent)) as [_ H].
  fold x in H. by rewrite Hx in H.
Qed.
End AnyResponse.

(** X11. Against a response that serves [body], with enough iterations
    allowed, [url_2_bytes] returns [body] whole for every chunk size other
    than zero, and the empty bytes for chunk size zero. *)
Theorem url_2_bytes_whole_body (fuel : nat) (url : string) (chk_size : Z)
    (user_agent : string) (body : bytes) :
  length body + 2 ≤ fuel →
  result (run serving (url_2_bytes fuel url chk_size user_agent) body)
  = Some (Returns (if (chk_size =? 0)%Z then [] else body)).
Proof.
  intros Hfuel. unfold url_2_bytes, content_gen.
  rewrite run_bind. cbn [invoke run serving]. rewrite run_bind.
  destruct (Z.eqb_spec chk_size 0) as [-> | Hsize].
  - destruct fuel as [| fuel]; [lia |]. cbn [read_loop invoke run serving].
    by rewrite take_0.
  - destruct (read_loop_serving fuel chk_size [] body Hfuel Hsize) as (new & Hres & Hcat).
    unfold result in *.
    destruct (run serving (read_loop fuel chk_size []) body) as [[r w2] t].
    cbn in Hres. subst r. cbn. by rewrite Hcat.
Qed.

Lemma url_2_bytes_joins_chunks_witness :
  let x := run serving (url_2_bytes 9 "https://example.org/a" 2 DFLT_USER_AGENT) hello in
  result x = Some (Returns hello)
  ∧ ∃ chunks,
      hello = concat chunks ∧ Forall (λ c, c ≠ []) chunks
      ∧ chunks_of (calls x) = chunks ++ [[]]
      ∧ map ev_op (calls x)
        = [Request "https://example.org/a"; add_header "user-agent" DFLT_USER_AGENT; urlopen]
          ++ replicate (S (length chunks)) (response_read 2)
          ++ [response_exit].
Proof.
  split; [vm_compute; reflexivity |].
  apply (url_2_bytes_joins_chunks serving hello 9 "https://example.org/a" 2
           DFLT_USER_AGENT hello).
  vm_compute; reflexivity.
Defined.

Lemma response_closed_on_every_path_witness :
  let x := run dropping (url_2_bytes 9 "https://example.org/a" 1024 DFLT_USER_AGENT) tt in
  result x ≠ None
  ∧ closes (calls x) = (if existsb opened (calls x) then 1 else 0)
  ∧ (existsb opened (calls x) = true → ∃ r, last (calls x) = Some (Ev response_exit r)).
Proof.
  split; [vm_compute; discriminate |].
  apply (response_closed_on_every_path dropping tt 9 "https://example.org/a" 1024
           DFLT_USER_AGENT).
  vm_compute; discriminate.
Defined.

Lemma url_2_bytes_raises_last_failure_witness :
  let x := run dropping (url_2_bytes 9 "https://example.org/a" 1024 DFLT_USER_AGENT) tt in
  result x ≠ None
  ∧ match last (failures (calls x)) with
    | Some f => result x = Some (Raises f)
    | None => ∃ b, result x = Some (Returns b)
    end.
Proof.
  split; [vm_compute; discriminate |].
  apply (url_2_bytes_raises_last_failure dropping tt 9 "https://example.org/a" 1024
           DFLT_USER_AGENT).
  vm_compute; discriminate.
Defined.

Lemma url_2_bytes_whole_body_witness :
  length hello + 2 ≤ 7
  ∧ result (run serving (url_2_bytes 7 "https://example.org/a" 1024 DFLT_USER_AGENT) hello)
    = Some (Returns (if (1024 =? 0)%Z then [] else hello)).
Proof.
  split; [vm_compute; lia |].
  apply (url_2_bytes_whole_body 7 "https://example.org/a" 1024 DFLT_USER_AGENT hello).
  vm_compute; lia.
Defined.

End fetch_facts.

(** ** Addresses and files: [slug_to_url_and_filename] *)

Module owid_names.
Import owid owid_trace owid_facts.

Lemma length_append (a b : string) :
  String.length (a +:+ b) = String.length a + String.length b.
Proof. induction a as [| c a IH]; [done |]. rewrite (append_cons c a). simpl. by rewrite IH. Qed.

Lemma append_inj_r (a b e : string) : a +:+ e = b +:+ e → a = b.
Proof.
  revert b. induction a as [| c a IH]; intros [| d b] H; [done | | |].
  - apply (f_equal String.length) in H. rewrite append_nil, (append_cons d b) in H.
    simpl in H. rewrite length_append in H. lia.
  - apply (f_equal String.length) in H. rewrite append_nil, (append_cons c a) in H.
    simpl in H. rewrite length_append in H. lia.
  - rewrite (append_cons c a), (append_cons d b) in H. injection H as -> H.
    by rewrite (IH b H).
Qed.

Lemma append_neq_self (a e : string) : e ≠ "" → a ≠ a +:+ e.
Proof.
  intros He H. apply (f_equal String.length) in H. rewrite length_append in H.
  destruct e; [done |]. simpl in H. lia.
Qed.

(** Whether [slug] followed by an extension starts with the separator is
    a matter of [slug] alone. *)
Lemma startswith_slug_ext (slug e : string) (c : ascii) (e' : string) :
  e = String c e' → c ≠ "/"%char →
  startswith (slug +:+ e) "/" = startswith slug "/".
Proof.
  intros -> Hc. destruct slug as [| d slug].
  - rewrite append_nil. unfold startswith. cbn [String.prefix].
    destruct (ascii_dec "/" c) as [<- |]; done.
  - rewrite (append_cons d slug). unfold startswith. cbn [String.prefix].
    destruct (ascii_dec "/" d); [| done]. by destruct slug, e'.
Qed.

Lemma os_path_join_inj (a b b' : string) :
  startswith b "/" = startswith b' "/" →
  os_path_join a b = os_path_join a b' → b = b'.
Proof.
  unfold os_path_join. intros <-. destruct (startswith b "/"); [done |].
  destruct a as [| c a]; [done |].
  destruct (endswith_sep (String c a)); intros H.
  - by apply (inj (String.append (String c a))) in H.
  - apply (inj (String.append (String c a))) in H.
    by apply (inj (String.append "/")) in H.
Qed.

Lemma os_path_join_under (a b : string) :
  startswith b "/" = false → startswith (os_path_join a b) a = true.
Proof.
  unfold os_path_join. intros ->. destruct a as [| c a]; [by destruct b |].
  destruct (endswith_sep (String c a)); apply prefix_app.
Qed.

Lemma append_empty_r (a : string) : a +:+ "" = a.
Proof. induction a as [| c a IH]; [done |]. by rewrite (append_cons c a), IH. Qed.

(** What the function returns, kind by kind: the kind, what is appended
    to the base address, and what is appended to the slug in the file
    name. *)
Lemma slug_cases (slug kind rootdir u p : string) :
  slug_to_url_and_filename slug kind rootdir = Returns (u, p) →
  ∃ eu e,
    (kind, eu, e) ∈ [("json", ".metadata.json", ".metadata.json");
                     ("csv", ".csv", ".csv"); ("zip", ".zip", ".zip");
                     ("html", "", ".html")]
    ∧ u = base_url slug +:+ eu ∧ p = os_path_join rootdir (slug +:+ e).
Proof.
  unfold slug_to_url_and_filename.
  destruct (String.eqb_spec kind "json") as [-> | _].
  { intros [= <- <-]. eexists _, _. split; [rewrite !elem_of_cons; by auto | done]. }
  destruct (String.eqb_spec kind "csv") as [-> | _].
  { intros [= <- <-]. eexists _, _.
    split; [rewrite !elem_of_cons; by auto | done]. }
  destruct (String.eqb_spec kind "zip") as [-> | _].
  { intros [= <- <-]. eexists _, _.
    split; [rewrite !elem_of_cons; by auto | done]. }
  destruct (String.eqb_spec kind "html") as [-> | _]; [| done].
  intros [= <- <-]. exists "", ".html".
  split; [rewrite !elem_of_cons; by auto 6 |].
  by rewrite append_empty_r.
Qed.

Ltac kind_cases H :=
  repeat (apply elem_of_cons in H as [H | H]; [injection H as -> -> -> |]);
  [.. | by apply elem_of_nil in H].

Section Names.
Context (slug rootdir : string).

(** X12. For one slug, the four kinds give four different addresses and
    four different files: in particular the file the archive is
    downloaded to, and deleted from, is never the file of the data or of
    the metadata. *)
Theorem kinds_give_distinct_files (k1 k2 u1 p1 u2 p2 : string) :
  slug_to_url_and_filename slug k1 rootdir = Returns (u1, p1) →
  slug_to_url_and_filename slug k2 rootdir = Returns (u2, p2) →
  k1 ≠ k2 → u1 ≠ u2 ∧ p1 ≠ p2.
Proof.
  intros (eu1 & e1 & H1 & -> & ->)%slug_cases (eu2 & e2 & H2 & -> & ->)%slug_cases Hk.
  kind_cases H1; kind_cases H2; try done.
  all: split; intros E.
  all: try (apply (inj (String.append (base_url slug))) in E; done).
  all: try (apply os_path_join_inj in E;
            [ by apply (inj (String.append slug)) in E
            | by rewrite !(startswith_slug_ext slug _ "." _ eq_refl) ]).
Qed.

(** X13. The file lies under [rootdir] as long as the slug does not start
    with the separator.  A slug that does start with it takes the file out
    of [rootdir]: the path is then the same whatever [rootdir] is. *)
Theorem file_under_rootdir_unless_slug_is_absolute (kind u p : string) :
  slug_to_url_and_filename slug kind rootdir = Returns (u, p) →
  (startswith slug "/" = false → startswith p rootdir = true) ∧
  (startswith slug "/" = true →
   ∀ rootdir', slug_to_url_and_filename slug kind rootdir' = Returns (u, p)).
Proof.
  intros H. pose proof H as (eu & e & Hk & -> & ->)%slug_cases.
  kind_cases Hk.
  all: split; intros Hs.
  all: try (apply os_path_join_under;
            by rewrite (startswith_slug_ext slug _ "." _ eq_refl)).
  all: intros rootdir'; rewrite <- H; unfold slug_to_url_and_filename, os_path_join;
    cbn [String.eqb Ascii.eqb Bool.eqb];
    by rewrite !(startswith_slug_ext slug _ "." _ eq_refl), Hs.
Qed.

End Names.

(** X14. Two slugs do not share an address, and they do not share a file as
    long as neither starts with the separator. *)
Theorem slugs_do_not_collide (s1 s2 kind rootdir u1 p1 u2 p2 : string) :
  slug_to_url_and_filename s1 kind rootdir = Returns (u1, p1) →
  slug_to_url_and_filename s2 kind rootdir = Returns (u2, p2) →
  s1 ≠ s2 →
  u1 ≠ u2 ∧ (startswith s1 "/" = false → startswith s2 "/" = false → p1 ≠ p2).
Proof.
  intros (eu1 & e1 & H1 & -> & ->)%slug_cases (eu2 & e2 & H2 & -> & ->)%slug_cases Hs.
  assert (eu1 = eu2 ∧ e1 = e2 ∧ ∃ e', e1 = String "." e') as (<- & <- & e' & He).
  { rewrite !elem_of_cons, elem_of_nil in H1, H2.
    destruct H1 as [H1 | [H1 | [H1 | [H1 | []]]]];
      destruct H2 as [H2 | [H2 | [H2 | [H2 | []]]]]; simplify_eq; by eauto. }
  split.
  - unfold base_url. intros E. apply append_inj_r in E.
    by apply (inj (String.append _)) in E.
  - intros H1' H2' E. apply os_path_join_inj in E.
    + by apply append_inj_r in E.
    + by rewrite !(startswith_slug_ext _ e1 "." e' He), H1', H2'.
Qed.

Lemma kinds_give_distinct_files_witness :
  slug_to_url_and_filename "co2" "zip" "/d/owid"
  = Returns ("https://ourworldindata.org/grapher/co2.zip", "/d/owid/co2.zip")
  ∧ slug_to_url_and_filename "co2" "html" "/d/owid"
    = Returns ("https://ourworldindata.org/grapher/co2", "/d/owid/co2.html")
  ∧ "zip" ≠ "html"
  ∧ "https://ourworldindata.org/grapher/co2.zip" ≠ "https://ourworldindata.org/grapher/co2"
  ∧ "/d/owid/co2.zip" ≠ "/d/owid/co2.html".
Proof.
  split; [reflexivity |]. split; [reflexivity |]. split; [discriminate |].
  apply (kinds_give_distinct_files "co2" "/d/owid" "zip" "html");
    [reflexivity | reflexivity | discriminate].
Defined.

Lemma file_under_rootdir_unless_slug_is_absolute_witness :
  slug_to_url_and_filename "/etc/co2" "csv" "/d/owid"
  = Returns ("https://ourworldindata.org/grapher//etc/co2.csv", "/etc/co2.csv")
  ∧ (startswith "/etc/co2" "/" = false → startswith "/etc/co2.csv" "/d/owid" = true)
  ∧ (startswith "/etc/co2" "/" = true →
     ∀ rootdir', slug_to_url_and_filename "/etc/co2" "csv" rootdir'
                 = Returns ("https://ourworldindata.org/grapher//etc/co2.csv", "/etc/co2.csv")).
Proof.
  split; [reflexivity |].
  apply (file_under_rootdir_unless_slug_is_absolute "/etc/co2" "/d/owid" "csv"); reflexivity.
Defined.

Lemma slugs_do_not_collide_witness :
  slug_to_url_and_filename "co2" "json" "/d/owid"
  = Returns ("https://ourworldindata.org/grapher/co2.metadata.json",
             "/d/owid/co2.metadata.json")
  ∧ slug_to_url_and_filename "co" "json" "/d/owid"
    = Returns ("https://ourworldindata.org/grapher/co.metadata.json",
               "/d/owid/co.metadata.json")
  ∧ "co2" ≠ "co"
  ∧ "https://ourworldindata.org/grapher/co2.metadata.json"
    ≠ "https://ourworldindata.org/grapher/co.metadata.json"
  ∧ (startswith "co2" "/" = false → startswith "co" "/" = false →
     "/d/owid/co2.metadata.json" ≠ "/d/owid/co.metadata.json").
Proof.
  split; [reflexivity |]. split; [reflexivity |]. split; [discriminate |].
  apply (slugs_do_not_collide "co2" "co" "json" "/d/owid");
    [reflexivity | reflexivity | discriminate].
Defined.

(** The restriction on the slugs is needed: under [/d/owid] the slugs
    [co2] and [/d/owid/co2] share their files. *)
Lemma absolute_slug_shares_file :
  ∃ p, (∃ u, slug_to_url_and_filename "co2" "csv" "/d/owid" = Returns (u, p))
     ∧ (∃ u, slug_to_url_and_filename "/d/owid/co2" "csv" "/d/owid" = Returns (u, p)).
Proof. exists "/d/owid/co2.csv". split; eexists; reflexivity. Qed.

End owid_names.

(** ** More of the acquirer *)

Module owid_more.
Import owid owid_trace owid_facts owid_observe.



Ltac forbidden_eval :=
  rewrite ?app_nil_r; cbn [app existsb];
  unfold raised_with, forbidden_only; cbn [failure_of ev_reply];
  split_andb;
  repeat match goal with
    | H : _is_non_redistributable ?e = _ |- context [_is_non_redistributable ?e] =>
        rewrite H
    | H : _is_forbidden_error ?e = _ |- context [_is_forbidden_error ?e] =>
        rewrite H
    end;
  cbn [negb andb orb]; rewrite ?orb_true_r.

Ltac seen_eval :=
  rewrite ?app_nil_r; unfold seen_existing; cbn [app existsb];
  repeat match goal with
    | H : existsb ?P ?t = true |- context [existsb ?P ?t] => rewrite H
    end;
  unfold answers_exists, extracts; cbn [ev_op ev_reply failure_of];
  rewrite ?String.eqb_refl; cbn [Bool.eqb andb orb]; rewrite ?orb_true_r.

Section Blocks.
Context (root slug : string).
Local Abbreviation cu := (csv_url slug).
Local Abbreviation ju := (json_url slug).
Local Abbreviation zu := (zip_url slug).
Local Abbreviation cp := (os_path_join root (slug +:+ ".csv")).
Local Abbreviation jp := (os_path_join root (slug +:+ ".metadata.json")).
Local Abbreviation cm := (slug +:+ ".csv").
Local Abbreviation jm := (slug +:+ ".metadata.json").
Local Abbreviation csv refresh := (csv_section root refresh slug cu cp jp).
Local Abbreviation json refresh := (json_section root refresh slug ju cp jp).

Lemma csv_once refresh :
  pwp (csv refresh) fresh_frame (λ t _ _, downloads cu t ≤ 1).
Proof.
  acquire_go.
  all: trace_eval; lia.
Qed.

Lemma json_once refresh s :
  pwp (json refresh) s (λ t _ _, downloads ju t ≤ 1).
Proof.
  acquire_go.
  all: trace_eval; lia.
Qed.






Lemma csv_zip_cause refresh :
  pwp (csv refresh) fresh_frame (λ t _ _,
    1 ≤ downloads zu t → existsb (raised_with forbidden_only) t = true).
Proof.
  acquire_go.
  all: intros Hz; trace_eval_in Hz; try lia; forbidden_eval; done.
Qed.

Lemma json_zip_cause refresh s :
  pwp (json refresh) s (λ t _ _,
    1 ≤ downloads zu t → existsb (raised_with forbidden_only) t = true).
Proof.
  acquire_go.
  all: intros Hz; trace_eval_in Hz; try lia; forbidden_eval; done.
Qed.


Lemma csv_seen refresh :
  pwp (csv refresh) fresh_frame (λ t r s',
    r = Returns tt →
    (∀ p, csv_file s' = Some p →
       seen_existing p t = true ∨ (p = cp ∧ existsb (extracts cm cp) t = true)) ∧
    (bound_and_truthy (json_file_from_zip s') = true →
       json_file_from_zip s' = Some (Some jp) ∧ existsb (extracts jm jp) t = true)).
Proof.
  acquire_go.
  all: intros Hr; try done.
  all: frame_rw; split_andb; subst; (split; [intros p Hp | intros Hz]); try done.
  all: try (injection Hp as <-).
  all: try (left; seen_eval; done).
  all: try (right; split; [done |]; seen_eval; done).
  all: try (split; [done |]; seen_eval; done).
Qed.

Lemma json_seen refresh s :
  pwp (json refresh) s (λ t r s',
    r = Returns tt →
    ∀ p, json_file s' = Some p →
      seen_existing p t = true ∨ (p = jp ∧ existsb (extracts jm jp) t = true)
      ∨ (bound_and_truthy (json_file_from_zip s) = true
         ∧ json_file_from_zip s = Some (Some p))).
Proof.
  acquire_go.
  all: intros Hr; try done.
  all: frame_rw; split_andb; subst; intros p Hp; try done.
  all: try (injection Hp as <-).
  all: try (left; seen_eval; done).
  all: try (right; left; split; [done |]; seen_eval; done).
  right; right. split; [done |].
  by destruct (json_file_from_zip s) as [[q |] |]; simplify_eq/=.
Qed.

Lemma csv_offline :
  pwp (csv false) fresh_frame (λ t r s',
    exists_checks cp true t = true →
    t = [Ev (Path_exists cp) (Done true)] ∧ r = Returns tt ∧ csv_file s' = Some cp).
Proof.
  acquire_go.
  all: frame_rw; intros Hc; trace_eval_in Hc; split_andb; try done.
  all: destruct x; try done.
Qed.

Lemma json_offline s :
  pwp (json false) s (λ t r s',
    exists_checks jp true t = true →
    t = [Ev (Path_exists jp) (Done true)] ∧ r = Returns tt ∧ json_file s' = Some jp).
Proof.
  acquire_go.
  all: frame_rw; intros Hc; trace_eval_in Hc; split_andb; try done.
  all: destruct x; try done.
Qed.

Lemma csv_refresh :
  pwp (csv true) fresh_frame (λ t r _, r = Returns tt → downloads cu t = 1).
Proof.
  acquire_go.
  all: intros Hr; try done; trace_eval; try done.
  all: by rewrite andb_false_r in Heqb.
Qed.

Lemma json_refresh s :
  pwp (json true) s (λ t r _,
    r = Returns tt →
    downloads ju t = 1 ∨ bound_and_truthy (json_file_from_zip s) = true).
Proof.
  acquire_go.
  all: intros Hr; try done; try (by right); left; trace_eval; try done.
  all: by rewrite andb_false_r in Heqb.
Qed.

End Blocks.

Section Calls.
Context {W : Type} (env : environment ans W) (w : W) (root slug : string) (refresh : bool).

Lemma once_wp :
  wp (acquire_owid_data root slug refresh) (λ t _,
    downloads (csv_url slug) t ≤ 1 ∧ downloads (json_url slug) t ≤ 1).
Proof.
  eapply acquire_sections;
    [ apply pwp_conj; [apply csv_once | apply csv_no_json]
    | intros s; apply pwp_conj; [apply json_once | apply json_no_csv]
    | .. ]; cbv beta.
  - intros tc e sc [H1 H2]. lia.
  - intros tc sc tj e sj [H1 H2] [H3 [H4 _]]. rewrite !downloads_app. lia.
  - intros tc sc tj sj [H1 H2] [H3 [H4 _]]. rewrite !downloads_app. lia.
Qed.

(** X15. In one call each of the two artifacts is downloaded from its own
    address at most once, whatever the replies and whatever [refresh]. *)
Theorem artifact_downloaded_at_most_once (a : artifact) :
  downloads (url_of a slug) (calls (run env (acquire_owid_data root slug refresh) w)) ≤ 1.
Proof.
  destruct (wp_run env _ w _ once_wp) as [Hc Hj]. by destruct a.
Qed.



Lemma zip_cause_wp :
  wp (acquire_owid_data root slug refresh) (λ t _,
    1 ≤ downloads (zip_url slug) t →
    existsb (raised_with forbidden_only) t = true).
Proof.
  eapply acquire_sections;
    [ apply csv_zip_cause | intros s; apply json_zip_cause | .. ]; cbv beta.
  - done.
  - intros tc sc tj e sj H1 H2. rewrite downloads_app, !existsb_app. intros Hz.
    destruct (decide (1 ≤ downloads (zip_url slug) tc)) as [Hc | Hc].
    + by rewrite (H1 Hc).
    + rewrite H2 by lia. apply orb_true_r.
  - intros tc sc tj sj H1 H2. rewrite downloads_app, !existsb_app. intros Hz.
    destruct (decide (1 ≤ downloads (zip_url slug) tc)) as [Hc | Hc].
    + by rewrite (H1 Hc).
    + rewrite H2 by lia. apply orb_true_r.
Qed.

(** X17. The archive is downloaded only after a call raised an error that
    [_is_forbidden_error] accepts and [_is_non_redistributable] does not.
    The call is the direct download, or one made on the downloaded file
    inside the same [try] block (its existence check, its [stat]). *)
Theorem archive_only_after_forbidden :
  let x := run env (acquire_owid_data root slug refresh) w in
  1 ≤ downloads (zip_url slug) (calls x) →
  existsb (raised_with forbidden_only) (calls x) = true.
Proof. intros x. exact (wp_run env _ w _ zip_cause_wp). Qed.

End Calls.

Lemma archive_only_after_forbidden_witness :
  let x := run (sim forbidden_site) (acquire_owid_data "/d/owid" "restricted-x" false) [] in
  1 ≤ downloads (zip_url "restricted-x") (calls x)
  ∧ existsb (raised_with forbidden_only) (calls x) = true.
Proof.
  split; [vm_compute; lia |].
  apply (archive_only_after_forbidden (sim forbidden_site) [] "/d/owid" "restricted-x" false).
  vm_compute; lia.
Defined.

Section CacheAndRefresh.
Context {W : Type} (env : environment ans W) (w : W) (root slug : string) (refresh : bool).

Lemma seen_wp :
  wp (acquire_owid_data root slug refresh) (λ t r,
    ∀ j c, r = Returns (j, c) →
      (∀ p, c = Some p →
         seen_existing p t = true ∨
         (p = csv_path root slug ∧ extracted data root slug t = true)) ∧
      (∀ p, j = Some p →
         seen_existing p t = true ∨
         (p = json_path root slug ∧ extracted metadata root slug t = true))).
Proof.
  eapply acquire_sections;
    [ apply csv_seen
    | intros s; apply pwp_conj; [apply json_seen | apply json_no_csv]
    | .. ];
    cbv beta; unfold extracted, member_of, path_of, csv_path, json_path, seen_existing.
  - done.
  - done.
  - intros tc sc tj sj Hc (Hj & _ & Hk) j c [= <- <-].
    destruct (Hc eq_refl) as [Hc1 Hc2]. specialize (Hj eq_refl).
    split; intros p Hp; rewrite !existsb_app.
    + rewrite Hk in Hp. destruct (Hc1 p Hp) as [-> | [-> ->]]; by auto.
    + destruct (Hj p Hp) as [-> | [[-> ->] | [Hb Hz]]];
        [left; apply orb_true_r | right; split; [done | apply orb_true_r] |].
      destruct (Hc2 Hb) as [Hz' ->]. rewrite Hz in Hz'. injection Hz' as ->. by right.
Qed.

(** X18. A path that a call returns was seen to exist during the call, or was
    written during the call from the archive: each component of the
    returned pair that is not absent is a path whose existence check
    answered [True], or the cache path of the artifact, extracted. *)
Theorem present_component_was_seen (a : artifact) (pair : option string * option string)
    (p : string) :
  let x := run env (acquire_owid_data root slug refresh) w in
  result x = Returns pair → component a pair = Some p →
  seen_existing p (calls x) = true ∨
  (p = path_of a root slug ∧ extracted a root slug (calls x) = true).
Proof.
  intros x Hr Hp. destruct pair as [j c].
  destruct (wp_run env _ w _ seen_wp j c Hr) as [Hc Hj].
  destruct a; simpl in *; auto.
Qed.



Lemma offline_wp :
  wp (acquire_owid_data root slug false) (λ t r,
    exists_checks (csv_path root slug) true t = true →
    exists_checks (json_path root slug) true t = true →
    t = [Ev (Path_exists (csv_path root slug)) (Done true);
         Ev (Path_exists (json_path root slug)) (Done true)]
    ∧ r = Returns (Some (json_path root slug), Some (csv_path root slug))).
Proof.
  eapply acquire_sections;
    [ apply csv_offline
    | intros s; apply pwp_conj; [apply json_offline | apply json_no_csv]
    | .. ];
    cbv beta; unfold csv_path, json_path.
  - intros tc e sc Hc H1 _. by destruct (Hc H1) as (_ & ? & _).
  - intros tc sc tj e sj Hc (Hj & _).
    rewrite !exists_checks_app. intros [H1 _]%andb_true_iff [_ H2]%andb_true_iff.
    by destruct (Hj H2) as (_ & ? & _).
  - intros tc sc tj sj Hc (Hj & _ & Hk).
    rewrite !exists_checks_app. intros [H1 _]%andb_true_iff [_ H2]%andb_true_iff.
    destruct (Hc H1) as (-> & _ & Hcf). destruct (Hj H2) as (-> & _ & Hjf).
    by rewrite Hjf, Hk, Hcf.
Qed.

(** X19. With [refresh] false and both cache files there, a call makes two
    calls and no more, the existence checks of the two cache paths, data
    first, and returns the two cache paths: nothing is downloaded, opened
    or read. *)
Theorem fully_cached_call_is_offline :
  let x := run env (acquire_owid_data root slug false) w in
  exists_checks (csv_path root slug) true (calls x) = true →
  exists_checks (json_path root slug) true (calls x) = true →
  calls x = [Ev (Path_exists (csv_path root slug)) (Done true);
             Ev (Path_exists (json_path root slug)) (Done true)]
  ∧ result x = Returns (Some (json_path root slug), Some (csv_path root slug)).
Proof. intros x. exact (wp_run env _ w _ offline_wp). Qed.

Lemma refresh_wp :
  wp (acquire_owid_data root slug true) (λ t r,
    (∃ pair, r = Returns pair) →
    downloads (csv_url slug) t = 1 ∧
    (downloads (json_url slug) t = 1 ∨ extracted metadata root slug t = true)).
Proof.
  eapply acquire_sections;
    [ apply pwp_conj; [apply csv_refresh | apply pwp_conj; [apply csv_no_json | apply csv_from_zip]]
    | intros s; apply pwp_conj; [apply json_refresh | apply json_no_csv]
    | .. ];
    cbv beta; unfold extracted, member_of, path_of, csv_path, json_path.
  - by intros tc e sc _ (pair & ?).
  - by intros tc sc tj e sj _ _ (pair & ?).
  - intros tc sc tj sj (Hc & Hnj & Hz) (Hj & Hnc & _) _.
    rewrite !downloads_app, existsb_app, Hnj, Hnc, (Hc eq_refl).
    split; [done |]. destruct (Hj eq_refl) as [-> | Hb]; [by left |].
    right. by rewrite (Hz Hb).
Qed.

(** X20. With [refresh] true the cache is not used: a call that returns has
    downloaded the data from its address exactly once, whether or not the
    cache file was there, and the metadata too, unless it came out of the
    archive. *)
Theorem refresh_ignores_cache :
  let x := run env (acquire_owid_data root slug true) w in
  (∃ pair, result x = Returns pair) →
  downloads (csv_url slug) (calls x) = 1 ∧
  (downloads (json_url slug) (calls x) = 1 ∨ extracted metadata root slug (calls x) = true).
Proof. intros x. exact (wp_run env _ w _ refresh_wp). Qed.

End CacheAndRefresh.

Lemma present_component_was_seen_witness :
  let x := run (sim open_site) (acquire_owid_data "/d/owid" "life-expectancy" false) [] in
  let pair := (Some "/d/owid/life-expectancy.metadata.json",
               Some "/d/owid/life-expectancy.csv") in
  result x = Returns pair
  ∧ component data pair = Some "/d/owid/life-expectancy.csv"
  ∧ (seen_existing "/d/owid/life-expectancy.csv" (calls x) = true
     ∨ ("/d/owid/life-expectancy.csv" = path_of data "/d/owid" "life-expectancy"
        ∧ extracted data "/d/owid" "life-expectancy" (calls x) = true)).
Proof.
  split; [vm_compute; reflexivity |]. split; [reflexivity |].
  apply (present_component_was_seen (sim open_site) [] "/d/owid" "life-expectancy" false data
           (Some "/d/owid/life-expectancy.metadata.json", Some "/d/owid/life-expectancy.csv"));
    [vm_compute; reflexivity | reflexivity].
Defined.

Lemma fully_cached_call_is_offline_witness :
  let disk := ["/d/owid/life-expectancy.csv"; "/d/owid/life-expectancy.metadata.json"] in
  let x := run (sim open_site) (acquire_owid_data "/d/owid" "life-expectancy" false) disk in
  exists_checks (csv_path "/d/owid" "life-expectancy") true (calls x) = true
  ∧ exists_checks (json_path "/d/owid" "life-expectancy") true (calls x) = true
  ∧ calls x = [Ev (Path_exists (csv_path "/d/owid" "life-expectancy")) (Done true);
               Ev (Path_exists (json_path "/d/owid" "life-expectancy")) (Done true)]
  ∧ result x = Returns (Some (json_path "/d/owid" "life-expectancy"),
                        Some (csv_path "/d/owid" "life-expectancy")).
Proof.
  split; [vm_compute; reflexivity |]. split; [vm_compute; reflexivity |].
  apply (fully_cached_call_is_offline (sim open_site)
           ["/d/owid/life-expectancy.csv"; "/d/owid/life-expectancy.metadata.json"]
           "/d/owid" "life-expectancy"); vm_compute; reflexivity.
Defined.

Lemma refresh_ignores_cache_witness :
  let disk := ["/d/owid/life-expectancy.csv"] in
  let x := run (sim open_site) (acquire_owid_data "/d/owid" "life-expectancy" true) disk in
  (∃ pair, result x = Returns pair)
  ∧ downloads (csv_url "life-expectancy") (calls x) = 1
  ∧ (downloads (json_url "life-expectancy") (calls x) = 1
     ∨ extracted metadata "/d/owid" "life-expectancy" (calls x) = true).
Proof.
  split; [eexists; vm_compute; reflexivity |].
  apply (refresh_ignores_cache (sim open_site) ["/d/owid/life-expectancy.csv"]
           "/d/owid" "life-expectancy").
  eexists; vm_compute; reflexivity.
Defined.

Lemma occurs_no_download url ret ps t :
  downloads url t = 0 → occurs (download_returned url ret :: ps) t = false.
Proof.
  induction t as [| [o x] t IH]; [done |]. cbn [downloads ev_op occurs starts_with].
  intros Hd. rewrite IH by lia.
  destruct o; cbn in *; try done. unfold download_returned. cbn.
  destruct (String.eqb url0 url); [lia | done].
Qed.

Lemma no_download_returned url ret t :
  no_download t = true → existsb (download_returned url ret) t = false.
Proof.
  induction t as [| [o x] t IH]; [done |]. cbn [no_download forallb existsb ev_op] in *.
  intros [Ho Ht]%andb_true_iff. rewrite (IH Ht). by destruct o.
Qed.

Lemma occurs_skip url ret ps t1 t2 :
  downloads url t1 = 0 →
  occurs (download_returned url ret :: ps) (t1 ++ t2)
  = occurs (download_returned url ret :: ps) t2.
Proof.
  induction t1 as [| [o x] t1 IH]; [done |]. cbn [downloads ev_op app].
  intros Hd. cbn [occurs starts_with]. rewrite IH by lia.
  destruct o; cbn in *; try done. unfold download_returned. cbn.
  destruct (String.eqb url0 url); [lia | done].
Qed.

Ltac occurs_eval_in H :=
  rewrite ?app_nil_r in H; cbn [app occurs starts_with existsb] in H;
  repeat match type of H with
    | context [existsb (download_returned ?u ?r) ?t] =>
        match goal with H' : no_download t = true |- _ =>
          rewrite (no_download_returned u r t H') in H end
    end;
  repeat match type of H with
    | context [occurs (download_returned ?u ?r :: ?ps) (?t ++ ?t2)] =>
        match goal with H' : no_download t = true |- _ =>
          rewrite (occurs_skip u r ps t t2 (no_download_downloads u t H')) in H end
    end;
  cbn [app occurs starts_with] in H;
  repeat match type of H with
    | context [occurs (download_returned ?u ?r :: ?ps) ?t] =>
        match goal with H' : no_download t = true |- _ =>
          rewrite (occurs_no_download u r ps t (no_download_downloads u t H')) in H end
    | context [occurs (download_returned ?u ?r :: ?ps) ?t] =>
        match goal with H' : downloads u t = 0 |- _ =>
          rewrite (occurs_no_download u r ps t H') in H end
    end;
  unfold download_returned, answers_exists, stat_returned in H;
  cbn [ev_op ev_reply failure_of] in H;
  url_simpl_in H;
  cbn [andb orb negb Stdlib.Bool.Bool.eqb] in H;
  rewrite ?andb_false_r, ?andb_true_r, ?orb_false_r in H;
  cbn [andb orb negb Stdlib.Bool.Bool.eqb] in H.

Ltac found_path :=
  split_andb;
  repeat match goal with
    | H : bool_decide _ = true |- _ => apply bool_decide_eq_true_1 in H
    | H : String.eqb _ _ = true |- _ => apply String.eqb_eq in H
    end;
  simplify_eq/=.

Section DownloadBlocks.
Context (root slug : string).
Local Abbreviation cu := (csv_url slug).
Local Abbreviation ju := (json_url slug).
Local Abbreviation zu := (zip_url slug).
Local Abbreviation cp := (os_path_join root (slug +:+ ".csv")).
Local Abbreviation jp := (os_path_join root (slug +:+ ".metadata.json")).
Local Abbreviation cm := (slug +:+ ".csv").
Local Abbreviation jm := (slug +:+ ".metadata.json").
Local Abbreviation csv refresh := (csv_section root refresh slug cu cp jp).
Local Abbreviation json refresh := (json_section root refresh slug ju cp jp).

Lemma json_found refresh s p :
  pwp (json refresh) s (λ t r s',
    occurs [download_returned ju (Some p); answers_exists p true] t = true →
    r = Returns tt → json_file s' = Some p).
Proof.
  acquire_go.
  all: intros Ho Hr; try done.
  all: occurs_eval_in Ho; try done.
  all: found_path; done.
Qed.

Lemma csv_found refresh p :
  pwp (csv refresh) fresh_frame (λ t r s',
    ∀ tail,
      downloads cu tail = 0 →
      (tail = [] ∨ ∃ x tl, tail = Ev (Path_exists jp) x :: tl) →
      occurs [download_returned cu (Some p); answers_exists p true; stat_returned p]
             (t ++ tail) = true →
      r = Returns tt → csv_file s' = Some p).
Proof.
  acquire_go.
  all: intros tail Hd [-> | (xj & tl & ->)] Ho Hr; try done.
  all: cbn [downloads ev_op is_download Nat.add] in Hd.
  all: rewrite <- ?app_assoc in Ho; occurs_eval_in Ho; try done.
  all: found_path; try done.
  exfalso. pose proof (truthy_join root slug ".metadata.json" ltac:(done)) as Hjp.
  cbn [truthy] in Hjp. by rewrite Hjp in Heqo.
Qed.

Lemma json_nothing refresh s :
  pwp (json refresh) s (λ t r s',
    (existsb (download_returned ju None) t = true
     ∨ existsb (download_returned ju (Some "")) t = true
     ∨ ∃ p, occurs [download_returned ju (Some p); answers_exists p false] t = true) →
    json_file s' = None).
Proof.
  acquire_go.
  all: frame_rw; intros [Ho | [Ho | (p & Ho)]]; try done.
  all: occurs_eval_in Ho; try done.
  all: found_path; done.
Qed.

Lemma csv_nothing refresh :
  pwp (csv refresh) fresh_frame (λ t r s',
    ∀ tail,
      downloads cu tail = 0 →
      (existsb (download_returned cu None) t = true
       ∨ existsb (download_returned cu (Some "")) t = true
       ∨ ∃ p, occurs [download_returned cu (Some p); answers_exists p false]
                     (t ++ tail) = true) →
      csv_file s' = None).
Proof.
  acquire_go.
  all: frame_rw; intros tail Hd [Ho | [Ho | (p & Ho)]]; try done.
  all: rewrite <- ?app_assoc in Ho; occurs_eval_in Ho; try done.
  all: found_path; done.
Qed.


End DownloadBlocks.

Lemma downloads_zero_returned url ret t :
  downloads url t = 0 → existsb (download_returned url ret) t = false.
Proof.
  induction t as [| [o x] t IH]; [done |]. cbn [downloads existsb ev_op].
  intros Hd. rewrite IH by lia.
  destruct o; cbn in *; try done. unfold download_returned. cbn.
  destruct (String.eqb url0 url); [lia | done].
Qed.

Section Downloads.
Context {W : Type} (env : environment ans W) (w : W) (root slug : string) (refresh : bool).

Lemma data_found_wp p :
  wp (acquire_owid_data root slug refresh) (λ t r,
    occurs [download_returned (csv_url slug) (Some p); answers_exists p true;
            stat_returned p] t = true →
    ∀ j c, r = Returns (j, c) → c = Some p).
Proof.
  eapply acquire_sections;
    [ apply (csv_found root slug refresh p)
    | intros s; apply pwp_conj; [apply json_no_csv | apply json_head]
    | .. ]; cbv beta.
  - done.
  - done.
  - intros tc sc tj sj Hc ((Hnc & Hk) & Hhead) Ho j c [= <- <-].
    rewrite Hk. apply (Hc tj); by auto.
Qed.

(** X21. The plain case for the data: when the download from the data
    address returns a path, the existence check of that path made next
    answers [True] and the [stat] made after it returns, the data
    component of the returned pair is that path. *)
Theorem downloaded_data_is_returned (p : string) (pair : option string * option string) :
  let x := run env (acquire_owid_data root slug refresh) w in
  occurs [download_returned (csv_url slug) (Some p); answers_exists p true;
          stat_returned p] (calls x) = true →
  result x = Returns pair → component data pair = Some p.
Proof.
  intros x Ho Hr. destruct pair as [j c].
  exact (wp_run env _ w _ (data_found_wp p) Ho j c Hr).
Qed.

Lemma metadata_found_wp p :
  wp (acquire_owid_data root slug refresh) (λ t r,
    occurs [download_returned (json_url slug) (Some p); answers_exists p true] t = true →
    ∀ j c, r = Returns (j, c) → j = Some p).
Proof.
  eapply acquire_sections;
    [ apply csv_no_json
    | intros s; apply (json_found root slug refresh s p)
    | .. ]; cbv beta.
  - done.
  - done.
  - intros tc sc tj sj Hnj Hj Ho j c [= <- <-].
    rewrite occurs_skip in Ho by done. by apply Hj.
Qed.

(** X22. The plain case for the metadata: when the download from the
    metadata address returns a path and the existence check of that path
    made next answers [True], the metadata component of the returned pair
    is that path, whatever happens while the title is read for the log. *)
Theorem downloaded_metadata_is_returned (p : string) (pair : option string * option string) :
  let x := run env (acquire_owid_data root slug refresh) w in
  occurs [download_returned (json_url slug) (Some p); answers_exists p true] (calls x) = true →
  result x = Returns pair → component metadata pair = Some p.
Proof.
  intros x Ho Hr. destruct pair as [j c].
  exact (wp_run env _ w _ (metadata_found_wp p) Ho j c Hr).
Qed.

Lemma nothing_wp :
  wp (acquire_owid_data root slug refresh) (λ t r,
    (came_to_nothing (csv_url slug) t → ∀ j c, r = Returns (j, c) → c = None) ∧
    (came_to_nothing (json_url slug) t → ∀ j c, r = Returns (j, c) → j = None)).
Proof.
  eapply acquire_sections;
    [ apply pwp_conj; [apply csv_nothing | apply csv_no_json]
    | intros s; apply pwp_conj; [apply json_nothing | apply json_no_csv]
    | .. ]; cbv beta.
  - done.
  - done.
  - intros tc sc tj sj (Hc & Hnj) (Hj & Hnc & Hk). unfold came_to_nothing.
    split; intros Hn j c [= <- <-].
    + rewrite Hk. apply (Hc tj Hnc). rewrite !existsb_app in Hn.
      rewrite !(downloads_zero_returned _ _ tj Hnc), !orb_false_r in Hn. exact Hn.
    + apply Hj. rewrite !existsb_app in Hn.
      rewrite !(downloads_zero_returned _ _ tc Hnj), !orb_false_l in Hn.
      destruct Hn as [? | [? | (p & Hp)]]; [by auto .. |].
      right; right. exists p. by rewrite occurs_skip in Hp.
Qed.

(** X23. A download that returns without a path ([None] or the empty
    string), or with a path at which no file is found, leaves the
    component of its artifact absent. *)
Theorem download_without_file_is_absent (a : artifact) (pair : option string * option string) :
  let x := run env (acquire_owid_data root slug refresh) w in
  came_to_nothing (url_of a slug) (calls x) →
  result x = Returns pair → component a pair = None.
Proof.
  intros x Hn Hr. destruct pair as [j c].
  destruct (wp_run env _ w _ nothing_wp) as [Hc Hj].
  destruct a; simpl in *; eauto.
Qed.

End Downloads.

Lemma downloaded_data_is_returned_witness :
  let x := run (sim open_site) (acquire_owid_data "/d/owid" "life-expectancy" false) [] in
  let p := "/d/owid/life-expectancy.csv" in
  let pair := (Some "/d/owid/life-expectancy.metadata.json", Some p) in
  occurs [download_returned (csv_url "life-expectancy") (Some p); answers_exists p true;
          stat_returned p] (calls x) = true
  ∧ result x = Returns pair
  ∧ component data pair = Some p.
Proof.
  split; [vm_compute; reflexivity |]. split; [vm_compute; reflexivity |].
  apply (downloaded_data_is_returned (sim open_site) [] "/d/owid" "life-expectancy" false
           "/d/owid/life-expectancy.csv"
           (Some "/d/owid/life-expectancy.metadata.json", Some "/d/owid/life-expectancy.csv"));
    vm_compute; reflexivity.
Defined.

Lemma downloaded_metadata_is_returned_witness :
  let x := run (sim open_site) (acquire_owid_data "/d/owid" "life-expectancy" false) [] in
  let p := "/d/owid/life-expectancy.metadata.json" in
  let pair := (Some p, Some "/d/owid/life-expectancy.csv") in
  occurs [download_returned (json_url "life-expectancy") (Some p); answers_exists p true]
         (calls x) = true
  ∧ result x = Returns pair
  ∧ component metadata pair = Some p.
Proof.
  split; [vm_compute; reflexivity |]. split; [vm_compute; reflexivity |].
  apply (downloaded_metadata_is_returned (sim open_site) [] "/d/owid" "life-expectancy" false
           "/d/owid/life-expectancy.metadata.json"
           (Some "/d/owid/life-expectancy.metadata.json", Some "/d/owid/life-expectancy.csv"));
    vm_compute; reflexivity.
Defined.

Lemma download_without_file_is_absent_witness :
  let x := run quiet (acquire_owid_data "/d/owid" "co2" false) tt in
  came_to_nothing (url_of data "co2") (calls x)
  ∧ result x = Returns (None, None)
  ∧ component data (None, None) = None.
Proof.
  split; [left; vm_compute; reflexivity |]. split; [vm_compute; reflexivity |].
  apply (download_without_file_is_absent quiet tt "/d/owid" "co2" false data (None, None));
    [left; vm_compute; reflexivity | vm_compute; reflexivity].
Defined.

Lemma failure_eqb_refl f : failure_eqb f f = true.
Proof. unfold failure_eqb. by rewrite Bool.eqb_reflx, String.eqb_refl. Qed.

Lemma member_csv_not_json slug :
  String.eqb (slug +:+ ".csv") (slug +:+ ".metadata.json") = false.
Proof.
  apply String.eqb_neq. intros E. by apply (inj (String.append slug)) in E.
Qed.

Lemma member_json_not_csv slug :
  String.eqb (slug +:+ ".metadata.json") (slug +:+ ".csv") = false.
Proof.
  apply String.eqb_neq. intros E. by apply (inj (String.append slug)) in E.
Qed.

Ltac untolerated_eval :=
  rewrite ?app_nil_r; cbn [app existsb];
  unfold untolerated_with, tolerated_event; cbn [failure_of ev_reply ev_op is_exists];
  rewrite ?failure_eqb_refl;
  repeat match goal with
    | H : derives_Exception ?f = _ |- context [derives_Exception ?f] => rewrite H
    end;
  cbn [negb andb orb]; rewrite ?andb_false_r, ?orb_true_r; cbn [negb andb orb];
  rewrite ?orb_true_r.

Lemma zip_more root slug refresh s :
  pwp (_download_from_zip root refresh slug (csv_path root slug) (json_path root slug)) s
      (λ t r _, zip_post_more root slug t r).
Proof.
  pwp_go ltac:(fun _ => unfold_zip).
  all: unfold zip_post_more;
    cbn [attempted_zip csv_file json_file json_file_from_zip csv_ok json_ok
         set_attempted_zip set_csv_file set_json_file set_json_file_from_zip
         set_csv_ok set_json_ok];
    (split; [intros e He; try done | intros c j [= <- <-] ]).
  all: try (injection He as <-; eexists; split; [reflexivity |]; untolerated_eval; done).
  all: try (split; intros Hx; try done; exfalso; rewrite ?app_nil_r in Hx;
            cbn [app existsb] in Hx; unfold extracts in Hx;
            cbn [ev_op ev_reply failure_of] in Hx;
            rewrite ?member_csv_not_json, ?member_json_not_csv in Hx;
            cbn [andb orb] in Hx; rewrite ?andb_false_r in Hx; cbn [andb orb] in Hx; done).
Qed.

Lemma extracts_skip member dest o x :
  match o with extract_member _ _ _ => false | _ => true end = true →
  extracts member dest (Ev o x) = false.
Proof. by destruct o. Qed.

Ltac unfold_acquire_more :=
  lazymatch goal with
  | |- pwp (_download_from_zip ?root ?refresh ?slug _ _) ?s _ =>
      let r := fresh "r" in
      let tz := fresh "tz" in let xz := fresh "xz" in
      let Hnd := fresh "Hnd" in let Hatt := fresh "Hatt" in
      let Hcf := fresh "Hcf" in let Hjf := fresh "Hjf" in let Hfz := fresh "Hfz" in
      let Htol := fresh "Htol" in let Hres := fresh "Hres" in
      let Hraise := fresh "Hraise" in let Hexact := fresh "Hexact" in
      let Hxc := fresh "Hxc" in let Hxj := fresh "Hxj" in
      let fz := fresh "fz" in let Hunt := fresh "Hunt" in
      eapply pwp_mono;
        [| apply pwp_conj; [apply zip_spec; frame_cbn; zip_side | apply zip_more]];
      intros ? r ? (((xz & tz & -> & Hnd) & (Hatt & Hcf & Hjf & Hfz) & Htol & Hres)
                    & (Hraise & Hexact));
      cbn [attempted_zip csv_file json_file json_file_from_zip csv_ok json_ok
       set_attempted_zip set_csv_file set_json_file set_json_file_from_zip
       set_csv_ok set_json_ok fresh_frame] in Hatt, Hcf, Hjf, Hfz;
      unfold csv_path, json_path, zip_path in *;
      destruct r as [[? ?] | ?];
      [ destruct (Hexact _ _ eq_refl) as [Hxc Hxj];
        cbn [existsb] in Hxc, Hxj;
        unfold extracts at 1 in Hxc; unfold extracts at 1 in Hxj;
        cbn [ev_op andb orb] in Hxc, Hxj;
        destruct (Hres _ _ eq_refl) as [[-> | [-> ?]] [-> | [-> ?]]];
        clear Hres Hexact Hraise
      | destruct (Hraise _ eq_refl) as (fz & -> & Hunt); clear Hres Hexact Hraise ]
  | |- pwp ?m _ _ =>
      let h := head_of m in
      lazymatch h with
      | @acquire_body => unfold acquire_body
      | @csv_section => unfold csv_section
      | @csv_direct => unfold csv_direct
      | @json_section => unfold json_section
      | @json_direct => unfold json_direct
      end
  end.

Ltac acquire_go_more :=
  repeat (first [pwp_rule | unfold_acquire_more]; pwp_simpl; frame_simpl).

Ltac find_untolerated :=
  rewrite ?app_nil_r; cbn [app];
  cbn [existsb];
  repeat first [ assumption | apply orb_true_iff; right ].

Section ArchiveBlocks.
Context (root slug : string).
Local Abbreviation cu := (csv_url slug).
Local Abbreviation ju := (json_url slug).
Local Abbreviation zu := (zip_url slug).
Local Abbreviation cp := (os_path_join root (slug +:+ ".csv")).
Local Abbreviation jp := (os_path_join root (slug +:+ ".metadata.json")).
Local Abbreviation cm := (slug +:+ ".csv").
Local Abbreviation jm := (slug +:+ ".metadata.json").
Local Abbreviation csv refresh := (csv_section root refresh slug cu cp jp).
Local Abbreviation json refresh := (json_section root refresh slug ju cp jp).

Lemma csv_serves_metadata refresh :
  pwp (csv refresh) fresh_frame (λ t r s',
    (existsb (download_raised cu forbidden_only) t = true → r = Returns tt →
     slug ∈ attempted_zip s') ∧
    (existsb (extracts jm jp) t = true → r = Returns tt →
     json_file_from_zip s' = Some (Some jp))).
Proof.
  acquire_go_more.
  all: frame_rw; split; [intros Hf Hr | intros Hx Hr]; try done.
  all: try (apply elem_of_union_l, elem_of_singleton; reflexivity).
  all: try (trace_eval_in Hf; unfold forbidden_only in Hf; trace_eval_in Hf;
            split_andb; congruence).
  all: try (rewrite ?app_nil_r in Hx; cbn [app existsb] in Hx;
            rewrite ?extracts_skip in Hx by reflexivity; cbn [orb] in Hx;
            first [by specialize (Hxj Hx) | done]).
Qed.

Lemma json_after_archive refresh s :
  pwp (json refresh) s (λ t r s',
    (slug ∈ attempted_zip s → existsb (extracts jm jp) t = false) ∧
    (json_file_from_zip s = Some (Some jp) →
     downloads ju t = 0 ∧ (r = Returns tt → json_file s' = Some jp))).
Proof.
  acquire_go_more.
  all: frame_rw; split; [intros Hin | intros Hz]; try done.
  all: try (exfalso;
    match goal with
    | H : _ && negb (bool_decide ?P) = true, Hn : ?P |- _ =>
        apply andb_true_iff in H as [_ H];
        apply negb_true_iff, bool_decide_eq_false_1 in H; exact (H Hn)
    end).
  all: try (rewrite Hz in *; cbn [bound_and_truthy default] in *;
            rewrite ?truthy_join in * by done; try done; split; trace_eval; done).
Qed.

Lemma csv_raises refresh :
  pwp (csv refresh) fresh_frame (λ t r _,
    ∀ e, r = Raises e →
      ∃ f, e = Propagated f ∧ existsb (untolerated_with f) t = true).
Proof.
  acquire_go_more.
  all: intros e He; try done.
  all: injection He as <-; eexists; (split; [reflexivity |]).
  all: try (untolerated_eval; done).
  all: try (find_untolerated; done).
Qed.

Lemma json_raises refresh s :
  pwp (json refresh) s (λ t r _,
    ∀ e, r = Raises e →
      ∃ f, e = Propagated f ∧ existsb (untolerated_with f) t = true).
Proof.
  acquire_go_more.
  all: intros e He; try done.
  all: injection He as <-; eexists; (split; [reflexivity |]).
  all: try (untolerated_eval; done).
  all: try (find_untolerated; done).
Qed.

End ArchiveBlocks.

Section ArchiveAndRaises.
Context {W : Type} (env : environment ans W) (w : W) (root slug : string) (refresh : bool).

Lemma raises_wp :
  wp (acquire_owid_data root slug refresh) (λ t r,
    ∀ e, r = Raises e →
      ∃ f, e = Propagated f ∧ existsb (untolerated_with f) t = true).
Proof.
  eapply acquire_sections;
    [ apply csv_raises | intros s; apply json_raises | .. ]; cbv beta.
  - intros tc e sc H e' [= <-]. by apply H.
  - intros tc sc tj e sj _ Hj e' [= <-]. destruct (Hj e eq_refl) as (f & -> & Hf).
    exists f. split; [done |]. rewrite existsb_app, Hf. apply orb_true_r.
  - done.
Qed.

(** X24. [acquire_owid_data] raises no exception of its own: an exception
    that leaves it was raised by one of the calls it made, and either it
    does not derive from [Exception] or the call was an existence check.
    The [ValueError] of [slug_to_url_and_filename] and the
    [AttributeError] of the log lines never leave it. *)
Theorem raises_only_what_a_call_raised (e : raised) :
  let x := run env (acquire_owid_data root slug refresh) w in
  result x = Raises e →
  ∃ f, e = Propagated f ∧ existsb (untolerated_with f) (calls x) = true.
Proof. intros x. exact (wp_run env _ w _ raises_wp e). Qed.

Lemma serves_wp :
  wp (acquire_owid_data root slug refresh) (λ t r,
    existsb (download_raised (csv_url slug) forbidden_only) t = true →
    extracted metadata root slug t = true →
    downloads (json_url slug) t = 0 ∧
    ∀ j c, r = Returns (j, c) → j = Some (json_path root slug)).
Proof.
  eapply acquire_sections;
    [ apply pwp_conj; [apply csv_serves_metadata | apply csv_no_json]
    | intros s; apply pwp_conj; [apply json_after_archive | apply json_no_csv]
    | .. ];
    cbv beta; unfold extracted, member_of, path_of, csv_path, json_path.
  - intros tc e sc (_ & Hnj) _ _. by split.
  - intros tc sc tj e sj ((Hatt & Hz) & Hnj) ((Hno & Hj) & Hnc & _).
    rewrite !existsb_app, downloads_app, Hnj.
    rewrite (downloads_zero_raised _ _ _ Hnc), orb_false_r. intros Hf.
    rewrite (Hno (Hatt Hf eq_refl)), orb_false_r. intros Hx.
    destruct (Hj (Hz Hx eq_refl)) as [-> _]. by split.
  - intros tc sc tj sj ((Hatt & Hz) & Hnj) ((Hno & Hj) & Hnc & _).
    rewrite !existsb_app, downloads_app, Hnj.
    rewrite (downloads_zero_raised _ _ _ Hnc), orb_false_r. intros Hf.
    rewrite (Hno (Hatt Hf eq_refl)), orb_false_r. intros Hx.
    destruct (Hj (Hz Hx eq_refl)) as [-> Hjf]. split; [done |].
    intros j c [= <- <-]. by apply Hjf.
Qed.

(** X25. One archive serves both artifacts: when the download of the data
    raised a forbidden error and the metadata came out of the archive, the
    metadata address is not downloaded at all, and the metadata component
    of the returned pair is the cache path of the metadata. *)
Theorem archive_serves_metadata :
  let x := run env (acquire_owid_data root slug refresh) w in
  existsb (download_raised (csv_url slug) forbidden_only) (calls x) = true →
  extracted metadata root slug (calls x) = true →
  downloads (json_url slug) (calls x) = 0 ∧
  ∀ pair, result x = Returns pair → component metadata pair = Some (json_path root slug).
Proof.
  intros x Hf Hx. destruct (wp_run env _ w _ serves_wp Hf Hx) as [Hd Hr].
  split; [done |]. intros [j c]. apply Hr.
Qed.

End ArchiveAndRaises.

Lemma raises_only_what_a_call_raised_witness :
  let x := run (sim interrupted_site) (acquire_owid_data "/d/owid" "co2" false) [] in
  let f := Failure false "KeyboardInterrupt" in
  result x = Raises (Propagated f)
  ∧ ∃ f', Propagated f = Propagated f' ∧ existsb (untolerated_with f') (calls x) = true.
Proof.
  split; [vm_compute; reflexivity |].
  apply (raises_only_what_a_call_raised (sim interrupted_site) [] "/d/owid" "co2" false
           (Propagated (Failure false "KeyboardInterrupt"))).
  vm_compute; reflexivity.
Defined.

Lemma archive_serves_metadata_witness :
  let x := run (sim forbidden_site) (acquire_owid_data "/d/owid" "restricted-x" false) [] in
  existsb (download_raised (csv_url "restricted-x") forbidden_only) (calls x) = true
  ∧ extracted metadata "/d/owid" "restricted-x" (calls x) = true
  ∧ downloads (json_url "restricted-x") (calls x) = 0
  ∧ ∀ pair, result x = Returns pair →
            component metadata pair = Some (json_path "/d/owid" "restricted-x").
Proof.
  split; [vm_compute; reflexivity |]. split; [vm_compute; reflexivity |].
  apply (archive_serves_metadata (sim forbidden_site) [] "/d/owid" "restricted-x" false);
    vm_compute; reflexivity.
Defined.


Section Fallback.
Context {W : Type} (env : environment ans W) (w : W).
Context (root slug : string) (refresh : bool) (s : frame).

Lemma zip_remembers :
  pwp (_download_from_zip root refresh slug (csv_path root slug) (json_path root slug)) s
      (λ _ _ s', slug ∈ attempted_zip s').
Proof.
  destruct (decide (slug ∈ attempted_zip s)) as [Hin | Hout].
  - pwp_go ltac:(fun _ => unfold_zip).
    all: cbn [attempted_zip csv_file json_file json_file_from_zip csv_ok json_ok
         set_attempted_zip set_csv_file set_json_file set_json_file_from_zip
         set_csv_ok set_json_ok]; try done.
    all: apply elem_of_union_l, elem_of_singleton; reflexivity.
  - eapply pwp_mono; [| by apply zip_spec].
    intros t r s' (_ & (-> & _) & _). apply elem_of_union_l, elem_of_singleton; reflexivity.
Qed.

(** X26. [_download_from_zip] records the slug in [attempted_zip] whatever
    happens, and with [refresh] false it does nothing for a slug that is
    recorded: no call is made, [(None, None)] is returned and the frame
    is left as it was. *)
Theorem fallback_attempt_is_remembered :
  let m := _download_from_zip root refresh slug (csv_path root slug) (json_path root slug) in
  slug ∈ attempted_zip (result (run env (m s) w)).2 ∧
  (slug ∈ attempted_zip s → refresh = false →
   run env (m s) w = ((Returns (None, None), s), w, [])).
Proof.
  intros m. split.
  - exact (wp_run env _ w _ zip_remembers).
  - intros Hin ->. unfold m, _download_from_zip, seq, lift. rewrite slug_zip.
    cbn [bind read]. by rewrite bool_decide_eq_true_2.
Qed.

End Fallback.

End owid_more.
